(** * ScriptsNessAuth: a shallow embedding of [server.js]

    The server registers users in a flat JSON file, stores their uploads
    in one directory per user and serves them back under
    [/raw/:username/:filename].  This development embeds the handlers of
    [server.js] together with the library calls they depend on
    ([sanitize-filename], Node's POSIX [path] module, multer's extension
    filter and size limit), and settles the properties the specification
    states about them. *)

From Stdlib Require Import Ascii String DecimalString.
From Stdlib Require Import List NArith ZArith Bool Lia.
Import ListNotations.

Local Open Scope N_scope.

(* ================================================================= *)
(** ** JavaScript strings *)

(** A JavaScript string is a sequence of UTF-16 code units.  Literals of
    the source are written [str "..."]. *)
Definition jsstring : Type := list N.

Definition str (s : string) : jsstring := map N_of_ascii (list_ascii_of_string s).
Arguments str s%_string.

Module JsString.

Definition t := jsstring.

Fixpoint eqb (a b : t) : bool :=
  match a, b with
  | [], [] => true
  | x :: a', y :: b' => N.eqb x y && eqb a' b'
  | _, _ => false
  end.

(** [String.prototype.startsWith]. *)
Fixpoint startsWith (s prefix : t) {struct prefix} : bool :=
  match prefix, s with
  | [], _ => true
  | p :: prefix', c :: s' => N.eqb c p && startsWith s' prefix'
  | _ :: _, [] => false
  end.

(** [String.prototype.slice(from, to)] for [0 <= from <= to]. *)
Definition slice (s : t) (from to : nat) : t := firstn (to - from)%nat (skipn from s).

(** [String.prototype.toLowerCase] restricted to the ASCII letters, for
    the test [ALLOWED_EXT.has(ext)] of [fileFilter]: no code point
    outside [A-Z] lower-cases to a letter of [".lua"] or [".txt"], so
    the test has the same answer as with the full function.  The
    listing of [/files], which shows the lower-cased extension, takes
    the full function as a parameter instead. *)
Definition lowerUnit (c : N) : N :=
  if (65 <=? c) && (c <=? 90) then c + 32 else c.

Definition toLowerCase (s : t) : t := map lowerUnit s.

(** Truthiness of a string value: only the empty string is falsy. *)
Definition truthy (s : t) : bool :=
  match s with [] => false | _ => true end.

(** [Number.prototype.toString] of a non-negative integer below 1e21. *)
Definition ofNumber (n : N) : t := str (NilZero.string_of_uint (N.to_uint n)).

End JsString.


(* ================================================================= *)
(** ** The [sanitize-filename] package ([require('sanitize-filename')]) *)

(** [server.js] imports the sanitizer from the npm package
    [sanitize-filename]; with no [replacement] option the package is the
    chain of five [String.prototype.replace] calls followed by
    [truncate-utf8-bytes] at 255 bytes that is transcribed here, one
    definition per regular expression. *)
Module SanitizeFilename.

(** [illegalRe]: the character class of slash, question mark, angle
    brackets, backslash, colon, asterisk, vertical bar and double quote. *)
Definition illegal (c : N) : bool :=
  existsb (N.eqb c) [47; 63; 60; 62; 92; 58; 42; 124; 34].

(** [controlRe = /[\x00-\x1f\x80-\x9f]/g] *)
Definition control (c : N) : bool :=
  (c <=? 31) || ((128 <=? c) && (c <=? 159)).

Definition dropIllegal (s : jsstring) : jsstring := filter (fun c => negb (illegal c)) s.
Definition dropControl (s : jsstring) : jsstring := filter (fun c => negb (control c)) s.

(** [reservedRe = /^\.+$/]: the whole string is one or more dots. *)
Definition isDot (c : N) : bool := N.eqb c 46.

Definition reserved (s : jsstring) : bool :=
  JsString.truthy s && forallb isDot s.

Definition dropReserved (s : jsstring) : jsstring :=
  if reserved s then [] else s.

(** [windowsReservedRe], case-insensitive and anchored at both ends:
    one of con, prn, aux, nul, com0-com9, lpt0-lpt9, then optionally a
    dot followed by any run of characters.  Without the [u] flag, case-insensitive matching never lets a
    non-ASCII code unit match an ASCII letter, so lower-casing the ASCII
    letters decides the alternatives. *)
Definition isDigit (c : N) : bool := (48 <=? c) && (c <=? 57).

(** [.] in a regular expression: anything but a line terminator. *)
Definition lineTerminator (c : N) : bool :=
  existsb (N.eqb c) [10; 13; 8232; 8233].

(** The optional tail of [windowsReservedRe]: nothing, or a dot and
    then characters that [.] matches, up to the end of the string. *)
Definition extensionTail (s : jsstring) : bool :=
  match s with
  | [] => true
  | c :: rest => isDot c && forallb (fun d => negb (lineTerminator d)) rest
  end.

Definition deviceName3 (a b c : N) : bool :=
  let w := [JsString.lowerUnit a; JsString.lowerUnit b; JsString.lowerUnit c] in
  existsb (JsString.eqb w) [str "con"; str "prn"; str "aux"; str "nul"].

Definition deviceName4 (a b c d : N) : bool :=
  let w := [JsString.lowerUnit a; JsString.lowerUnit b; JsString.lowerUnit c] in
  existsb (JsString.eqb w) [str "com"; str "lpt"] && isDigit d.

Definition windowsReserved (s : jsstring) : bool :=
  match s with
  | a :: b :: c :: rest =>
      (deviceName3 a b c && extensionTail rest)
      || match rest with
         | d :: rest' => deviceName4 a b c d && extensionTail rest'
         | [] => false
         end
  | _ => false
  end.

Definition dropWindowsReserved (s : jsstring) : jsstring :=
  if windowsReserved s then [] else s.

(** [windowsTrailingRe = /[\. ]+$/]: the trailing run of dots and spaces. *)
Definition dotOrSpace (c : N) : bool := N.eqb c 46 || N.eqb c 32.

Definition dropTrailing (s : jsstring) : jsstring :=
  fold_right (fun c acc =>
                match acc with
                | [] => if dotOrSpace c then [] else [c]
                | _ => c :: acc
                end) [] s.

(** [truncate-utf8-bytes]: walk the string segment by segment (a
    surrogate pair is one segment), adding up [Buffer.byteLength], and
    cut before the first segment that would pass [byteLength]. *)
Definition isHighSurrogate (c : N) : bool := (55296 <=? c) && (c <=? 56319).
Definition isLowSurrogate (c : N) : bool := (56320 <=? c) && (c <=? 57343).

(** [Buffer.byteLength] of a one-unit segment (a lone surrogate is
    encoded as U+FFFD, three bytes). *)
Definition unitBytes (c : N) : N :=
  if c <? 128 then 1 else if c <? 2048 then 2 else 3.

Fixpoint truncateFrom (byteLength cur : N) (s : jsstring) : jsstring :=
  match s with
  | [] => []
  | c :: rest =>
      match rest with
      | d :: rest' =>
          if isHighSurrogate c && isLowSurrogate d then
            let cur' := cur + 4 in
            if cur' =? byteLength then [c; d]
            else if byteLength <? cur' then []
            else c :: d :: truncateFrom byteLength cur' rest'
          else
            let cur' := cur + unitBytes c in
            if cur' =? byteLength then [c]
            else if byteLength <? cur' then []
            else c :: truncateFrom byteLength cur' rest
      | [] =>
          let cur' := cur + unitBytes c in
          if cur' =? byteLength then [c]
          else if byteLength <? cur' then []
          else [c]
      end
  end.

Definition truncate (s : jsstring) (byteLength : N) : jsstring :=
  truncateFrom byteLength 0 s.

(** Two predicates to state what [sanitize] returns: a code unit that
    neither character class removes, and a string that ends in a dot or
    a space. *)
Definition clean (c : N) : bool := negb (illegal c) && negb (control c).

Definition endsDotOrSpace (s : jsstring) : bool :=
  match rev s with c :: _ => dotOrSpace c | [] => false end.

End SanitizeFilename.

(** [const sanitize = require('sanitize-filename')], called with no
    options: the five replacements with the empty string, then the
    truncation to 255 bytes. *)
Definition sanitize (input : jsstring) : jsstring :=
  SanitizeFilename.truncate
    (SanitizeFilename.dropTrailing
       (SanitizeFilename.dropWindowsReserved
          (SanitizeFilename.dropReserved
             (SanitizeFilename.dropControl
                (SanitizeFilename.dropIllegal input)))))
    255.

(* ================================================================= *)
(** ** Node's [path] module, POSIX flavour *)

(** The parts of [require('path')] that [server.js] calls: [join],
    [resolve] and [extname].  Paths are strings; [/] is the only
    separator. *)
Module Path.

Definition sep : N := 47.
Definition dot : N := 46.

Definition isAbsolute (p : jsstring) : bool :=
  match p with c :: _ => N.eqb c sep | [] => false end.

(** The segments between separators, [a//b] giving [a], the empty
    segment and [b]. *)
Definition split (p : jsstring) : list jsstring :=
  fold_right (fun c acc =>
                if N.eqb c sep then [] :: acc
                else match acc with
                     | seg :: more => (c :: seg) :: more
                     | [] => [[c]]
                     end) [[]] p.

Fixpoint joinSegments (segs : list jsstring) : jsstring :=
  match segs with
  | [] => []
  | [seg] => seg
  | seg :: more => seg ++ sep :: joinSegments more
  end.

(** [normalizeString(path, allowAboveRoot)]: empty and [.] segments
    vanish, [..] removes the segment before it; at the top, [..] is kept
    when [allowAboveRoot] and dropped otherwise.  [acc] holds the
    segments kept so far, last one first. *)
Fixpoint normalizeSegments (allowAboveRoot : bool) (acc segs : list jsstring)
  : list jsstring :=
  match segs with
  | [] => rev acc
  | seg :: more =>
      if JsString.eqb seg [] || JsString.eqb seg [dot] then
        normalizeSegments allowAboveRoot acc more
      else if JsString.eqb seg [dot; dot] then
        match acc with
        | last :: acc' =>
            if JsString.eqb last [dot; dot]
            then normalizeSegments allowAboveRoot (seg :: acc) more
            else normalizeSegments allowAboveRoot acc' more
        | [] =>
            if allowAboveRoot
            then normalizeSegments allowAboveRoot [seg] more
            else normalizeSegments allowAboveRoot [] more
        end
      else normalizeSegments allowAboveRoot (seg :: acc) more
  end.

Definition normalizeString (p : jsstring) (allowAboveRoot : bool) : jsstring :=
  joinSegments (normalizeSegments allowAboveRoot [] (split p)).

Definition endsWithSep (p : jsstring) : bool :=
  match rev p with c :: _ => N.eqb c sep | [] => false end.

(** [path.normalize] *)
Definition normalize (p : jsstring) : jsstring :=
  match p with
  | [] => [dot]
  | _ =>
      let absolute := isAbsolute p in
      let trailing := endsWithSep p in
      let body := normalizeString p (negb absolute) in
      match body with
      | [] => if absolute then [sep]
              else if trailing then [dot; sep] else [dot]
      | _ => (if absolute then [sep] else [])
               ++ body ++ (if trailing then [sep] else [])
      end
  end.

(** [path.join(...args)]: the non-empty arguments glued with [/], then
    normalized. *)
Definition join (args : list jsstring) : jsstring :=
  match filter JsString.truthy args with
  | [] => [dot]
  | parts => normalize (joinSegments parts)
  end.

(** [path.resolve(...args)]: arguments are prepended from the right
    until an absolute one is met; [cwd] is [process.cwd()], used when
    none is. *)
Fixpoint resolveFrom (rargs : list jsstring) (resolved : jsstring)
  : jsstring * bool :=
  match rargs with
  | [] => (resolved, false)
  | p :: more =>
      match p with
      | [] => resolveFrom more resolved
      | _ =>
          let resolved' := p ++ sep :: resolved in
          if isAbsolute p then (resolved', true)
          else resolveFrom more resolved'
      end
  end.

Definition resolve (cwd : jsstring) (args : list jsstring) : jsstring :=
  let '(resolved, absolute) := resolveFrom (rev (cwd :: args)) [] in
  let body := normalizeString resolved (negb absolute) in
  if absolute then sep :: body
  else match body with [] => [dot] | _ => body end.

(** [path.extname]: the backwards scan of the source, with its five
    state variables.  [-1] is the unset index, as in the source. *)
Record ExtState := {
  startDot : Z;
  startPart : Z;
  endIdx : Z;
  matchedSlash : bool;
  preDotState : Z
}.

Definition extInit : ExtState :=
  {| startDot := -1; startPart := 0; endIdx := -1;
     matchedSlash := true; preDotState := 0 |}.

(** One turn of the loop at index [i] on code unit [code]; the boolean
    is set when the turn ends in [break]. *)
Definition extStep (i : Z) (code : N) (st : ExtState) : ExtState * bool :=
  if N.eqb code sep then
    if negb (matchedSlash st)
    then ({| startDot := startDot st; startPart := (i + 1)%Z;
             endIdx := endIdx st; matchedSlash := matchedSlash st;
             preDotState := preDotState st |}, true)
    else (st, false)
  else
    let st1 :=
      if (endIdx st =? -1)%Z
      then {| startDot := startDot st; startPart := startPart st;
              endIdx := (i + 1)%Z; matchedSlash := false;
              preDotState := preDotState st |}
      else st in
    let st2 :=
      if N.eqb code dot then
        if (startDot st1 =? -1)%Z
        then {| startDot := i; startPart := startPart st1;
                endIdx := endIdx st1; matchedSlash := matchedSlash st1;
                preDotState := preDotState st1 |}
        else if negb (preDotState st1 =? 1)%Z
        then {| startDot := startDot st1; startPart := startPart st1;
                endIdx := endIdx st1; matchedSlash := matchedSlash st1;
                preDotState := 1 |}
        else st1
      else if negb (startDot st1 =? -1)%Z
      then {| startDot := startDot st1; startPart := startPart st1;
              endIdx := endIdx st1; matchedSlash := matchedSlash st1;
              preDotState := -1 |}
      else st1 in
    (st2, false).

(** The loop [for (i = path.length - 1; i >= 0; --i)], fed the code
    units from the last one down. *)
Fixpoint extLoop (backwards : jsstring) (i : Z) (st : ExtState) : ExtState :=
  match backwards with
  | [] => st
  | code :: more =>
      let '(st', stop) := extStep i code st in
      if stop then st' else extLoop more (i - 1)%Z st'
  end.

Definition extname (p : jsstring) : jsstring :=
  let st := extLoop (rev p) (Z.of_nat (List.length p) - 1)%Z extInit in
  if (startDot st =? -1)%Z
     || (endIdx st =? -1)%Z
     || (preDotState st =? 0)%Z
     || ((preDotState st =? 1)%Z
         && (startDot st =? endIdx st - 1)%Z
         && (startDot st =? startPart st + 1)%Z)
  then []
  else JsString.slice p (Z.to_nat (startDot st)) (Z.to_nat (endIdx st)).

End Path.

(* ================================================================= *)
(** ** The server's state *)

(** [{ id, username, passwordHash }] *)
Record User := {
  id : N;
  username : jsstring;
  passwordHash : jsstring
}.

(** The content of [data/users.json]: [{ users: [...], nextId: N }].
    Ids are JSON integers. *)
Record Db := {
  users : list User;
  nextId : N
}.

(** [n++] on a JavaScript number that holds the non-negative integer
    [n]: the stored value becomes the double nearest to [n + 1].  Below
    2^53 that is [n + 1]; from 2^53 to 2^54 the doubles are the even
    integers, [n + 1] lies half-way between two of them and the tie goes
    to the one with the even significand; from 2^54 on it is [n]
    again. *)
Definition increment (n : N) : N :=
  if n <? 2 ^ 53 then n + 1
  else if n <? 2 ^ 54 then (if N.even (n / 2) then n else n + 2)
  else n.

(** What the startup code writes when the file is missing. *)
Definition emptyDb : Db := {| users := []; nextId := 1 |}.

(** What [req.session] holds once somebody is logged in. *)
Record Session := {
  userId : N;
  sessionUsername : jsstring
}.

Inductive Node := RegularFile | Directory.

(** The file system, as far as [fs.existsSync] and [res.sendFile] can
    see it. *)
Definition FileSystem := jsstring -> option Node.

(** The process around the handlers: where the script lives
    ([__dirname]), [process.cwd()] and the two bcrypt calls. *)
Record Env := {
  __dirname : jsstring;
  cwd : jsstring;
  hashSync : jsstring -> jsstring;
  compareSync : jsstring -> jsstring -> bool
}.

(** What a request finds: the users file, the file system and its own
    session. *)
Record World := {
  usersFile : Db;
  files : FileSystem;
  session : option Session
}.

Definition DATA_DIR (e : Env) : jsstring := Path.join [__dirname e; str "data"].
Definition UPLOADS_DIR (e : Env) : jsstring := Path.join [__dirname e; str "uploads"].
Definition USERS_FILE (e : Env) : jsstring := Path.join [DATA_DIR e; str "users.json"].

(** [ALLOWED_EXT.has(ext)] for [new Set(['.lua', '.txt'])] *)
Definition ALLOWED_EXT_has (ext : jsstring) : bool :=
  existsb (JsString.eqb ext) [str ".lua"; str ".txt"].

Definition loadUsers (w : World) : Db := usersFile w.

Definition existsSync (w : World) (p : jsstring) : bool :=
  match files w p with Some _ => true | None => false end.

(** What a handler does to the outside: [saveUsers(db)], a
    [fs.mkdirSync(dir, { recursive: true })], multer writing the upload
    of [size] bytes, the two assignments to [req.session]. *)
Inductive Effect :=
| SaveUsers (db : Db)
| MkdirSync (dir : jsstring)
| WriteUpload (filePath : jsstring) (size : N)
| SessionSet (s : Session).

(** The answers of the handlers. *)
Inductive Payload :=
| ErrorMessage (error : string)
| OkUsername (name : jsstring).

Inductive MiddlewareError :=
| FilterError (message : string)
| DestinationError (message : string)
| LimitFileSize.

Inductive Reply :=
| Json (status : N) (payload : Payload)
| Send (status : N) (text : string)
| Redirect (location : jsstring)
| SendFile (filePath : jsstring)
| NextError (err : MiddlewareError).

Definition Outcome : Type := Reply * list Effect.

(** [if (!fs.existsSync(dir)) fs.mkdirSync(dir, { recursive: true })] *)
Definition ensureDir (w : World) (dir : jsstring) : list Effect :=
  if existsSync w dir then [] else [MkdirSync dir].

(** The state after the effects of a request. *)
Definition isAncestorOrSelf (dir p : jsstring) : bool :=
  JsString.eqb dir p
  || JsString.startsWith p (dir ++ [Path.sep])
  || JsString.eqb dir [Path.sep].

Definition applyEffect (w : World) (eff : Effect) : World :=
  match eff with
  | SaveUsers db =>
      {| usersFile := db; files := files w; session := session w |}
  | MkdirSync dir =>
      {| usersFile := usersFile w;
         files := fun p =>
                    match files w p with
                    | Some n => Some n
                    | None => if isAncestorOrSelf p dir
                              then Some Directory else None
                    end;
         session := session w |}
  | WriteUpload filePath _ =>
      {| usersFile := usersFile w;
         files := fun p => if JsString.eqb p filePath
                           then Some RegularFile else files w p;
         session := session w |}
  | SessionSet s =>
      {| usersFile := usersFile w; files := files w; session := Some s |}
  end.

Definition run (w : World) (effs : list Effect) : World :=
  fold_left applyEffect effs w.

(* ================================================================= *)
(** ** [POST /api/register] and [POST /api/login] *)

(** [req.body]: each field may be missing. *)
Record Credentials := {
  bodyUsername : option jsstring;
  bodyPassword : option jsstring
}.

(** [!field] *)
Definition missing (field : option jsstring) : bool :=
  match field with
  | Some s => negb (JsString.truthy s)
  | None => true
  end.

Definition fieldValue (field : option jsstring) : jsstring :=
  match field with Some s => s | None => [] end.

Definition msgRequired : string := "username e password são obrigatórios".
Definition msgInvalidUsername : string := "username inválido".
Definition msgUserExists : string := "Usuário já existe".
Definition msgBadCredentials : string := "Credenciais inválidas".

(** [db.users.find(u => u.username === username)] *)
Definition findUser (db : Db) (name : jsstring) : option User :=
  find (fun u => JsString.eqb (username u) name) (users db).

Definition register (e : Env) (w : World) (body : Credentials) : Outcome :=
  if missing (bodyUsername body) || missing (bodyPassword body) then
    (Json 400 (ErrorMessage msgRequired), [])
  else
    let name := fieldValue (bodyUsername body) in
    let password := fieldValue (bodyPassword body) in
    let cleanUser := sanitize name in
    if negb (JsString.eqb cleanUser name) then
      (Json 400 (ErrorMessage msgInvalidUsername), [])
    else
      let db := loadUsers w in
      match findUser db name with
      | Some _ => (Json 400 (ErrorMessage msgUserExists), [])
      | None =>
          let passwordHash := hashSync e password in
          let user := {| id := nextId db; username := name;
                         passwordHash := passwordHash |} in
          let db' := {| users := users db ++ [user];
                        nextId := increment (nextId db) |} in
          let userDir := Path.join [UPLOADS_DIR e; sanitize name] in
          (Json 200 (OkUsername (username user)),
           SaveUsers db'
             :: ensureDir w userDir
             ++ [SessionSet {| userId := id user;
                               sessionUsername := username user |}])
      end.

Definition login (e : Env) (w : World) (body : Credentials) : Outcome :=
  if missing (bodyUsername body) || missing (bodyPassword body) then
    (Json 400 (ErrorMessage msgRequired), [])
  else
    let name := fieldValue (bodyUsername body) in
    let password := fieldValue (bodyPassword body) in
    let db := loadUsers w in
    match findUser db name with
    | None => (Json 400 (ErrorMessage msgBadCredentials), [])
    | Some user =>
        if negb (compareSync e password (passwordHash user)) then
          (Json 400 (ErrorMessage msgBadCredentials), [])
        else
          (Json 200 (OkUsername (username user)),
           [SessionSet {| userId := id user;
                          sessionUsername := username user |}])
    end.

(* ================================================================= *)
(** ** [POST /upload] *)

(** The file part of the multipart request: [file.originalname] and the
    number of bytes the part carries. *)
Record FilePart := {
  originalname : jsstring;
  size : N
}.

(** [requireLogin]: [req.session && req.session.userId]. *)
Definition requireLogin (w : World) : bool :=
  match session w with
  | Some s => negb (userId s =? 0)
  | None => false
  end.

Definition msgUnauthorized : string := "Unauthorized".
Definition msgNotAllowed : string :=
  "Tipo de arquivo não permitido. Apenas .lua e .txt".
Definition msgNotAuthenticated : string := "Usuário não está autenticado".
Definition msgNoFile : string := "Nenhum arquivo enviado ou tipo não permitido.".

(** [fileFilter]: [true] when the file is let through. *)
Definition fileFilter (file : FilePart) : bool :=
  let ext := JsString.toLowerCase (Path.extname (originalname file)) in
  ALLOWED_EXT_has ext.

(** [storage.destination]: the directory, or the error of the first
    branch. *)
Definition destination (e : Env) (w : World) : option jsstring :=
  match session w with
  | Some s =>
      if JsString.truthy (sessionUsername s)
      then Some (Path.join [UPLOADS_DIR e; sanitize (sessionUsername s)])
      else None
  | None => None
  end.

(** [storage.filename]; [now] is [Date.now()] and [random] is
    [Math.round(Math.random() * 1e6)]. *)
Definition filename (now random : N) (file : FilePart) : jsstring :=
  let name := match sanitize (originalname file) with
              | [] => str "file"
              | clean => clean
              end in
  let unique := JsString.ofNumber now ++ str "-" ++ JsString.ofNumber random in
  unique ++ str "-" ++ name.

(** [limits: { fileSize: 5 * 1024 * 1024 }] *)
Definition fileSizeLimit : N := 5 * 1024 * 1024.

(** Modelled from the spec: how multer enforces [limits.fileSize].  The
    comparison is made inside multer, which is not part of this
    repository; [server.js] only supplies the number.  The
    specification words it as: total byte size must not exceed the
    limit. *)
Definition exceedsLimit (size limit : N) : bool := limit <? size.

(** [requireLogin], then [upload.single('file')], then the handler.
    multer calls [fileFilter] when the part's headers arrive, then
    [destination] and [filename], then streams the bytes to disk under
    the size limit, removing the file again when the limit is passed. *)
Definition upload (e : Env) (w : World) (now random : N) (part : option FilePart)
  : Outcome :=
  if negb (requireLogin w) then
    (Json 401 (ErrorMessage msgUnauthorized), [])
  else
    match part with
    | None => (Send 400 msgNoFile, [])
    | Some file =>
        if negb (fileFilter file) then
          (NextError (FilterError msgNotAllowed), [])
        else
          match destination e w with
          | None => (NextError (DestinationError msgNotAuthenticated), [])
          | Some userDir =>
              let made := ensureDir w userDir in
              if exceedsLimit (size file) fileSizeLimit then
                (NextError LimitFileSize, made)
              else
                let stored := Path.join [userDir; filename now random file] in
                (Redirect (str "/"), made ++ [WriteUpload stored (size file)])
          end
    end.

(* ================================================================= *)
(** ** [GET /raw/:username/:filename] *)

Definition msgBadRequest : string := "Bad request".
Definition msgNotFound : string := "Arquivo não encontrado".

(** The two paths the handler computes. *)
Definition rawUserDir (e : Env) (username : jsstring) : jsstring :=
  Path.resolve (cwd e) [UPLOADS_DIR e; sanitize username].

Definition rawFilePath (e : Env) (username filename : jsstring) : jsstring :=
  Path.resolve (cwd e) [rawUserDir e username; filename].

Definition raw (e : Env) (w : World) (username filename : jsstring) : Outcome :=
  let userDir := rawUserDir e username in
  let filePath := rawFilePath e username filename in
  if negb (JsString.startsWith filePath userDir) then
    (Send 400 msgBadRequest, [])
  else if negb (existsSync w filePath) then
    (Send 404 msgNotFound, [])
  else
    (SendFile filePath, []).

(* ================================================================= *)
(** ** Vocabulary of the properties *)

(** The string contains [/] or a backslash. *)
Definition hasSeparator (s : jsstring) : bool :=
  existsb (fun c => N.eqb c 47 || N.eqb c 92) s.

(** The string contains two dots in a row. *)
Fixpoint hasDotDot (s : jsstring) : bool :=
  match s with
  | a :: rest =>
      match rest with
      | b :: _ => (N.eqb a 46 && N.eqb b 46) || hasDotDot rest
      | [] => false
      end
  | [] => false
  end.

(** [p] names something below the directory [dir]. *)
Definition insideDir (dir p : jsstring) : bool :=
  JsString.startsWith p (dir ++ [Path.sep]).

Definition isRegularFile (w : World) (p : jsstring) : bool :=
  match files w p with Some RegularFile => true | _ => false end.

(** What a client of the raw server gets: one of the two errors, or the
    bytes of a file. *)
Inductive Served :=
| BadRequest
| NotFound
| Stream (bytes : list N).

(** Modelled from the spec: [res.sendFile], which is Express's and not
    part of this repository.  In the specification's words, a resolved
    path that does not exist or is not a regular file is answered with
    not found, and otherwise the file's bytes are streamed.  [bytesOf]
    is the content of the regular files. *)
Definition sendFile (w : World) (bytesOf : jsstring -> list N)
  (filePath : jsstring) : Served :=
  if isRegularFile w filePath then Stream (bytesOf filePath) else NotFound.

(** [serve(username, filename)]: the handler of
    [/raw/:username/:filename], line by line, with the call of
    [res.sendFile] carried out. *)
Definition serve (e : Env) (w : World) (bytesOf : jsstring -> list N)
  (username filename : jsstring) : Served :=
  let userDir := rawUserDir e username in
  let filePath := rawFilePath e username filename in
  if negb (JsString.startsWith filePath userDir) then BadRequest
  else if negb (existsSync w filePath) then NotFound
  else sendFile w bytesOf filePath.

(** The effects that put an upload on disk. *)
Definition writesUpload (eff : Effect) : bool :=
  match eff with WriteUpload _ _ => true | _ => false end.

(** The invariant of the users file: every id handed out is below
    [nextId], and no username occurs twice. *)
Definition idsBelowNext (db : Db) : Prop :=
  forall u, In u (users db) -> id u < nextId db.

Definition uniqueUsernames (db : Db) : Prop :=
  NoDup (map username (users db)).

Definition storeInvariant (db : Db) : Prop :=
  idsBelowNext db /\ uniqueUsernames db.

(* ================================================================= *)
(** ** A deployment to evaluate the handlers on *)

(** The script lives in [/app]; bcrypt is stood in for by a tagging
    function, which is all the handlers need of it. *)
Module Demo.

Definition env : Env :=
  {| __dirname := str "/app";
     cwd := str "/app";
     hashSync := fun password => str "$2a$10$" ++ password;
     compareSync := fun password hash =>
                      JsString.eqb (str "$2a$10$" ++ password) hash |}.

Definition alice : User :=
  {| id := 1; username := str "alice";
     passwordHash := str "$2a$10$secret123" |}.

Definition db : Db := {| users := [alice]; nextId := 2 |}.

(** Two users, [alice] and [alicebob], each with a directory; only
    [alicebob] has uploaded a file. *)
Definition disk : FileSystem :=
  fun p =>
    if existsb (JsString.eqb p)
         [str "/app"; str "/app/data"; str "/app/uploads";
          str "/app/uploads/alice"; str "/app/uploads/alicebob"]
    then Some Directory
    else if existsb (JsString.eqb p)
              [str "/app/data/users.json";
               str "/app/uploads/alicebob/1700000000000-42-secret.txt"]
    then Some RegularFile
    else None.

(** What is in the one uploaded file. *)
Definition content (p : jsstring) : list N :=
  if JsString.eqb p (str "/app/uploads/alicebob/1700000000000-42-secret.txt")
  then str "print(1)" else [].

Definition anonymous : World :=
  {| usersFile := db; files := disk; session := None |}.

Definition asAlice : World :=
  {| usersFile := db; files := disk;
     session := Some {| userId := 1; sessionUsername := str "alice" |} |}.

End Demo.

(* ================================================================= *)
(** ** [GET /api/me] *)

(** [{ logged: true, username }] or [{ logged: false }] *)
Inductive MeReply :=
| Logged (name : jsstring)
| NotLogged.

(** [req.session && req.session.userId] decides; the name is read from
    the session. *)
Definition me (w : World) : MeReply :=
  match session w with
  | Some s => if negb (userId s =? 0) then Logged (sessionUsername s) else NotLogged
  | None => NotLogged
  end.

(* ================================================================= *)
(** ** More vocabulary *)

(** [Buffer.byteLength(s)]: the UTF-8 size, a surrogate pair counting
    for four bytes and any other code unit as in
    [SanitizeFilename.unitBytes]. *)
Fixpoint byteLength (s : jsstring) : N :=
  match s with
  | [] => 0
  | c :: rest =>
      match rest with
      | d :: rest' =>
          if SanitizeFilename.isHighSurrogate c && SanitizeFilename.isLowSurrogate d
          then 4 + byteLength rest'
          else SanitizeFilename.unitBytes c + byteLength rest
      | [] => SanitizeFilename.unitBytes c
      end
  end.

(** The string contains [/]. *)
Definition hasSlash (s : jsstring) : bool := existsb (N.eqb Path.sep) s.

(** The string contains a dot. *)
Definition hasDot (s : jsstring) : bool := existsb (N.eqb Path.dot) s.

(** A path segment that [normalizeString] keeps as it is: not empty,
    without [/], and neither [.] nor [..]. *)
Definition properSegment (seg : jsstring) : bool :=
  JsString.truthy seg
  && negb (hasSlash seg)
  && negb (JsString.eqb seg [Path.dot])
  && negb (JsString.eqb seg [Path.dot; Path.dot]).

(** No slash anywhere, and proper segments only. *)
Definition noSlash (s : jsstring) : Prop := Forall (fun c => c <> Path.sep) s.

Definition properAll (segs : list jsstring) : Prop :=
  Forall (fun seg => properSegment seg = true) segs.

(** The absolute, normalized path made of the given segments: [/] for
    none, [/a/b] for [a] and [b]. *)
Definition absolutePath (segs : list jsstring) : jsstring :=
  Path.sep :: Path.joinSegments segs.

(** Three landmarks of the scan of [path.extname], to follow it through
    a name. *)
Module ExtScan.

(** A code unit that is neither a dot nor a slash. *)
Definition plain (c : N) : Prop := c <> Path.dot /\ c <> Path.sep.

(** The state once the end of the name is known and no dot was met. *)
Definition seenEnd (e : Z) : Path.ExtState :=
  {| Path.startDot := -1; Path.startPart := 0; Path.endIdx := e;
     Path.matchedSlash := false; Path.preDotState := 0 |}.

(** The state once the last dot is known, at index [d]. *)
Definition seenDot (d e pre : Z) : Path.ExtState :=
  {| Path.startDot := d; Path.startPart := 0; Path.endIdx := e;
     Path.matchedSlash := false; Path.preDotState := pre |}.

End ExtScan.

(** The server is installed in the directory of the given segments:
    [__dirname] is that absolute, normalized path, as Node provides
    it. *)
Definition installedAt (e : Env) (segs : list jsstring) : Prop :=
  __dirname e = absolutePath segs /\ properAll segs.

(** The segments of the directory the raw server reads for a username:
    those of the uploads root, then the sanitized username unless it is
    empty. *)
Definition userSegments (segs : list jsstring) (username : jsstring)
  : list jsstring :=
  (segs ++ [str "uploads"])
    ++ match sanitize username with [] => [] | name => [name] end.

(* ================================================================= *)
(** ** [encodeURIComponent] *)

(** The built-in of the language, as ECMAScript defines it: code units
    of the unreserved set stand for themselves, every other code point
    is written as the percent-escapes of its UTF-8 octets, and an
    unpaired surrogate raises [URIError], which is [None] here. *)
Module Uri.

Definition isAlpha (c : N) : bool :=
  ((65 <=? c) && (c <=? 90)) || ((97 <=? c) && (c <=? 122)).

(** Letters, digits and the marks [- _ . ! ~ * ' ( )]. *)
Definition unreserved (c : N) : bool :=
  isAlpha c || SanitizeFilename.isDigit c
  || existsb (N.eqb c) [45; 95; 46; 33; 126; 42; 39; 40; 41].

(** One upper-case hexadecimal digit. *)
Definition hexDigit (n : N) : N := if n <? 10 then 48 + n else 55 + n.

Definition percent (octet : N) : jsstring :=
  [37; hexDigit (octet / 16); hexDigit (octet mod 16)].

(** The UTF-8 octets of a code point. *)
Definition utf8 (cp : N) : list N :=
  if cp <? 128 then [cp]
  else if cp <? 2048 then [192 + cp / 64; 128 + cp mod 64]
  else if cp <? 65536 then
    [224 + cp / 4096; 128 + (cp / 64) mod 64; 128 + cp mod 64]
  else
    [240 + cp / 262144; 128 + (cp / 4096) mod 64;
     128 + (cp / 64) mod 64; 128 + cp mod 64].

Definition escape (cp : N) : jsstring := flat_map percent (utf8 cp).

(** [UTF16SurrogatePairToCodePoint] *)
Definition pairToCodePoint (lead trail : N) : N :=
  (lead - 55296) * 1024 + (trail - 56320) + 65536.

Fixpoint encodeURIComponent (s : jsstring) : option jsstring :=
  match s with
  | [] => Some []
  | c :: rest =>
      if unreserved c then
        option_map (cons c) (encodeURIComponent rest)
      else if SanitizeFilename.isLowSurrogate c then None
      else if SanitizeFilename.isHighSurrogate c then
        match rest with
        | d :: rest' =>
            if SanitizeFilename.isLowSurrogate d
            then option_map (app (escape (pairToCodePoint c d)))
                   (encodeURIComponent rest')
            else None
        | [] => None
        end
      else option_map (app (escape c)) (encodeURIComponent rest)
  end.

End Uri.

(* ================================================================= *)
(** ** [GET /files] *)

(** What the handler reads of the request: the [x-forwarded-proto]
    header, [req.protocol] and [req.get('host')]. *)
Record RequestInfo := {
  forwardedProto : option jsstring;
  protocol : jsstring;
  host : option jsstring
}.

(** [getBaseUrl]: the header wins when it is there and not empty; a
    missing host prints as [undefined] in the template. *)
Definition getBaseUrl (req : RequestInfo) : jsstring :=
  let proto := match forwardedProto req with
               | Some p => if JsString.truthy p then p else protocol req
               | None => protocol req
               end in
  proto ++ str "://" ++ match host req with
                        | Some h => h
                        | None => str "undefined"
                        end.

(** [fs.readdirSync] and the two fields of [fs.statSync] that are
    used. *)
Record Stat := {
  statSize : N;
  statMtime : N
}.

Record Listing := {
  readdirSync : jsstring -> list jsstring;
  statSync : jsstring -> Stat
}.

(** One object of the answer. *)
Record FileEntry := {
  entryName : jsstring;
  entrySize : N;
  entryMtime : N;
  entryExt : jsstring;
  entryRawUrl : jsstring
}.

Inductive FilesReply :=
| FilesUnauthorized
| FilesJson (entries : list FileEntry)
| FilesThrows.

(** The callback of [map]; [None] when [encodeURIComponent] throws.
    [toLowerCase] is [String.prototype.toLowerCase], the built-in with
    its full Unicode case mapping, taken as it is. *)
Definition fileEntry (toLowerCase : jsstring -> jsstring)
  (req : RequestInfo) (ls : Listing)
  (sessionName userDir f : jsstring) : option FileEntry :=
  let stat := statSync ls (Path.join [userDir; f]) in
  match Uri.encodeURIComponent sessionName, Uri.encodeURIComponent f with
  | Some encodedName, Some encodedFile =>
      Some {| entryName := f;
              entrySize := statSize stat;
              entryMtime := statMtime stat;
              entryExt := toLowerCase (Path.extname f);
              entryRawUrl := getBaseUrl req ++ str "/raw/" ++ encodedName
                               ++ str "/" ++ encodedFile |}
  | _, _ => None
  end.

Fixpoint mapEntries (entry : jsstring -> option FileEntry) (names : list jsstring)
  : option (list FileEntry) :=
  match names with
  | [] => Some []
  | f :: more =>
      match entry f with
      | Some first =>
          match mapEntries entry more with
          | Some others => Some (first :: others)
          | None => None
          end
      | None => None
      end
  end.

(** [req.session.username], and the directory that is listed for it. *)
Definition sessionName (w : World) : jsstring :=
  match session w with
  | Some s => sessionUsername s
  | None => []
  end.

Definition listedDir (e : Env) (w : World) : jsstring :=
  Path.join [UPLOADS_DIR e; sanitize (sessionName w)].

Definition listFiles (toLowerCase : jsstring -> jsstring)
  (e : Env) (w : World) (req : RequestInfo) (ls : Listing)
  : FilesReply :=
  if negb (requireLogin w) then FilesUnauthorized
  else
    let userDir := listedDir e w in
    if negb (existsSync w userDir) then FilesJson []
    else
      match mapEntries (fileEntry toLowerCase req ls (sessionName w) userDir)
              (readdirSync ls userDir) with
      | Some entries => FilesJson entries
      | None => FilesThrows
      end.

(** Well-formed UTF-16: every surrogate is half of a pair. *)
Fixpoint wellFormedUtf16 (s : jsstring) : bool :=
  match s with
  | [] => true
  | c :: rest =>
      if SanitizeFilename.isLowSurrogate c then false
      else if SanitizeFilename.isHighSurrogate c then
        match rest with
        | d :: rest' => SanitizeFilename.isLowSurrogate d && wellFormedUtf16 rest'
        | [] => false
        end
      else wellFormedUtf16 rest
  end.

(** The characters that would cut a URL path segment short: slash,
    question mark, hash and space. *)
Definition urlDelimiter (c : N) : bool := existsb (N.eqb c) [47; 63; 35; 32].

(** A listing to evaluate [GET /files] on: [alicebob] is logged in,
    behind a proxy that forwards the protocol, and has one file.  The
    name is ASCII, on which [JsString.toLowerCase] is the built-in. *)
Module DemoListing.

Definition asAlicebob : World :=
  {| usersFile := Demo.db; files := Demo.disk;
     session := Some {| userId := 7; sessionUsername := str "alicebob" |} |}.

Definition request : RequestInfo :=
  {| forwardedProto := Some (str "https"); protocol := str "http";
     host := Some (str "example.org") |}.

Definition listing : Listing :=
  {| readdirSync := fun _ => [str "1700000000000-42-Secret.TXT"];
     statSync := fun _ => {| statSize := 10; statMtime := 1700000000000 |} |}.

Definition entry : FileEntry :=
  {| entryName := str "1700000000000-42-Secret.TXT";
     entrySize := 10;
     entryMtime := 1700000000000;
     entryExt := str ".txt";
     entryRawUrl :=
       str "https://example.org/raw/alicebob/1700000000000-42-Secret.TXT" |}.

End DemoListing.

(* ================================================================= *)
(** * Properties *)

(** ** Strings *)

Lemma jseqb_spec (a b : jsstring) : reflect (a = b) (JsString.eqb a b).
Proof.
  revert b; induction a as [|x a IH]; intros [|y b]; simpl;
    try (constructor; congruence).
  destruct (N.eqb_spec x y) as [->|Hxy]; simpl.
  - destruct (IH b) as [->|Hab]; constructor; congruence.
  - constructor; congruence.
Qed.

Lemma jseqb_refl (a : jsstring) : JsString.eqb a a = true.
Proof. destruct (jseqb_spec a a); congruence. Qed.

Lemma jseqb_eq (a b : jsstring) : JsString.eqb a b = true <-> a = b.
Proof. destruct (jseqb_spec a b); split; congruence. Qed.

Lemma jseqb_neq (a b : jsstring) : JsString.eqb a b = false <-> a <> b.
Proof. destruct (jseqb_spec a b); split; congruence. Qed.

Lemma startsWith_app (p s : jsstring) : JsString.startsWith (p ++ s) p = true.
Proof. induction p as [|c p IH]; simpl; [easy|]. now rewrite N.eqb_refl, IH. Qed.

Lemma startsWith_inv (s p : jsstring) :
  JsString.startsWith s p = true -> exists rest, s = p ++ rest.
Proof.
  revert s; induction p as [|c p IH]; intros s H; simpl in *.
  - now exists s.
  - destruct s as [|d s]; [discriminate|].
    apply andb_true_iff in H as [Hc Hs]. apply N.eqb_eq in Hc as ->.
    destruct (IH _ Hs) as [rest ->]. now exists rest.
Qed.

(** ** The sanitizer *)

Module SanitizeFacts.
Import SanitizeFilename.

(** Induction over a string two code units at a time, the way
    [truncateFrom] recurses. *)
Lemma pair_ind (P : jsstring -> Prop) :
  P [] -> (forall c, P [c]) ->
  (forall c d s, P s -> P (d :: s) -> P (c :: d :: s)) ->
  forall s, P s.
Proof.
  intros H0 H1 H2 s.
  assert (H : P s /\ forall c, P (c :: s)).
  { induction s as [|d s [IHs IHc]]; split; auto. }
  exact (proj1 H).
Qed.

Lemma filter_fixed {A} (f : A -> bool) (l : list A) :
  Forall (fun x => f x = true) l -> filter f l = l.
Proof.
  induction 1 as [|x l Hx _ IH]; simpl; [easy|]. now rewrite Hx, IH.
Qed.

Lemma filter_length_lt {A} (f : A -> bool) (l : list A) (x : A) :
  In x l -> f x = false -> (List.length (filter f l) < List.length l)%nat.
Proof.
  induction l as [|y l IH]; simpl; [easy|].
  intros [->|Hin] Hx.
  - rewrite Hx. pose proof (filter_length_le f l). lia.
  - specialize (IH Hin Hx). destruct (f y); simpl; lia.
Qed.

Lemma dropIllegal_clean (s : jsstring) :
  Forall (fun c => illegal c = false) (dropIllegal s).
Proof.
  apply Forall_forall. intros c Hc. apply filter_In in Hc as [_ Hc].
  now apply negb_true_iff in Hc.
Qed.

Lemma dropControl_clean (s : jsstring) :
  Forall (fun c => illegal c = false) s ->
  Forall (fun c => clean c = true) (dropControl s).
Proof.
  intros Hs. apply Forall_forall. intros c Hc.
  apply filter_In in Hc as [Hin Hc].
  rewrite Forall_forall in Hs. unfold clean. now rewrite (Hs _ Hin), Hc.
Qed.

Lemma dropReserved_cases (s : jsstring) :
  dropReserved s = s \/ (dropReserved s = [] /\ reserved s = true).
Proof. unfold dropReserved. destruct (reserved s); auto. Qed.

Lemma dropWindowsReserved_cases (s : jsstring) :
  dropWindowsReserved s = s
  \/ (dropWindowsReserved s = [] /\ windowsReserved s = true).
Proof. unfold dropWindowsReserved. destruct (windowsReserved s); auto. Qed.

Lemma dropTrailing_cons (c : N) (s : jsstring) :
  dropTrailing (c :: s) =
  match dropTrailing s with
  | [] => if dotOrSpace c then [] else [c]
  | _ :: _ => c :: dropTrailing s
  end.
Proof. reflexivity. Qed.

(** [dropTrailing] only cuts at the end. *)
Lemma dropTrailing_prefix (s : jsstring) :
  exists cut, s = dropTrailing s ++ cut /\ Forall (fun c => dotOrSpace c = true) cut.
Proof.
  induction s as [|c s (cut & Hs & Hcut)].
  - now exists [].
  - rewrite dropTrailing_cons. destruct (dropTrailing s) as [|a acc] eqn:E.
    + simpl in Hs. subst cut. destruct (dotOrSpace c) eqn:Ec.
      * exists (c :: s). split; [easy|]. now constructor.
      * exists s. now split.
    + exists cut. split; [|easy]. simpl. now rewrite Hs at 1.
Qed.

Lemma dropTrailing_length (s : jsstring) :
  (List.length (dropTrailing s) <= List.length s)%nat.
Proof.
  destruct (dropTrailing_prefix s) as (cut & Hs & _).
  rewrite Hs at 2. rewrite length_app. lia.
Qed.

Lemma dropTrailing_Forall (P : N -> Prop) (s : jsstring) :
  Forall P s -> Forall P (dropTrailing s).
Proof.
  intros H. destruct (dropTrailing_prefix s) as (cut & Hs & _).
  rewrite Hs in H. now apply Forall_app in H.
Qed.

Lemma endsDotOrSpace_cons (c : N) (s : jsstring) :
  endsDotOrSpace (c :: s) =
  match s with [] => dotOrSpace c | _ => endsDotOrSpace s end.
Proof.
  unfold endsDotOrSpace. destruct s as [|d s]; [reflexivity|].
  simpl. destruct (rev s ++ [d]) as [|x l] eqn:E.
  - apply app_eq_nil in E as [_ E]. discriminate E.
  - reflexivity.
Qed.

(** The strings [dropTrailing] leaves alone are those that do not end
    in a dot or a space. *)
Lemma dropTrailing_fixed_iff (s : jsstring) :
  dropTrailing s = s <-> endsDotOrSpace s = false.
Proof.
  induction s as [|c s IH]; [easy|].
  rewrite dropTrailing_cons, endsDotOrSpace_cons.
  destruct s as [|d s].
  - simpl. destruct (dotOrSpace c); split; congruence.
  - destruct (dropTrailing (d :: s)) as [|a acc] eqn:E.
    + split.
      * destruct (dotOrSpace c); intros H; discriminate H.
      * intros H. apply IH in H. discriminate H.
    + rewrite <- IH. split; congruence.
Qed.

Lemma dropTrailing_shorter (s : jsstring) :
  endsDotOrSpace s = true ->
  (List.length (dropTrailing s) < List.length s)%nat.
Proof.
  intros H. pose proof (dropTrailing_length s) as Hle.
  destruct (Nat.eq_dec (List.length (dropTrailing s)) (List.length s)) as [E|]; [|lia].
  destruct (dropTrailing_prefix s) as (cut & Hs & _).
  assert (cut = []) as ->.
  { apply length_zero_iff_nil. rewrite Hs in E at 2. rewrite length_app in E. lia. }
  rewrite app_nil_r in Hs. symmetry in Hs.
  apply dropTrailing_fixed_iff in Hs. congruence.
Qed.

Lemma reserved_endsDot (s : jsstring) :
  reserved s = true -> endsDotOrSpace s = true.
Proof.
  unfold reserved. intros H. apply andb_true_iff in H as [Hne Hdots].
  induction s as [|c s IH]; [discriminate|].
  rewrite endsDotOrSpace_cons. simpl in Hdots.
  apply andb_true_iff in Hdots as [Hc Hs].
  destruct s as [|d s].
  - unfold dotOrSpace. unfold isDot in Hc. now rewrite Hc.
  - now apply IH.
Qed.

Lemma windowsReserved_nonempty (s : jsstring) :
  windowsReserved s = true -> s <> [].
Proof. now destruct s. Qed.

(** What [truncateFrom] returns starts like its argument. *)
Lemma truncateFrom_head (n cur d : N) (s : jsstring) :
  truncateFrom n cur (d :: s) = []
  \/ exists rest, truncateFrom n cur (d :: s) = d :: rest.
Proof.
  simpl. destruct s as [|d' s'].
  - destruct (_ =? _); [eauto|]. destruct (_ <? _); eauto.
  - destruct (_ && _).
    + destruct (_ =? _); [eauto|]. destruct (_ <? _); eauto.
    + destruct (_ =? _); [eauto|]. destruct (_ <? _); eauto.
Qed.

Lemma truncateFrom_prefix (n : N) (s : jsstring) :
  forall cur, exists cut, s = truncateFrom n cur s ++ cut.
Proof.
  induction s as [| c | c d s IHs IHd] using pair_ind; intros cur.
  - now exists [].
  - simpl. destruct (_ =? _); [now exists []|].
    destruct (_ <? _); [now exists [c]|now exists []].
  - simpl. destruct (_ && _).
    + destruct (_ =? _); [now exists s|].
      destruct (_ <? _); [now exists (c :: d :: s)|].
      destruct (IHs (cur + 4)) as [cut Hcut]. exists cut.
      simpl. now rewrite Hcut at 1.
    + destruct (_ =? _); [now exists (d :: s)|].
      destruct (_ <? _); [now exists (c :: d :: s)|].
      destruct (IHd (cur + unitBytes c)) as [cut Hcut]. exists cut.
      simpl. now rewrite Hcut at 1.
Qed.

Lemma truncate_length (s : jsstring) (n : N) :
  (List.length (truncate s n) <= List.length s)%nat.
Proof.
  destruct (truncateFrom_prefix n s 0) as [cut Hcut]. unfold truncate.
  rewrite Hcut at 2. rewrite length_app. lia.
Qed.

Lemma truncate_Forall (P : N -> Prop) (s : jsstring) (n : N) :
  Forall P s -> Forall P (truncate s n).
Proof.
  intros H. destruct (truncateFrom_prefix n s 0) as [cut Hcut].
  unfold truncate. rewrite Hcut in H. now apply Forall_app in H.
Qed.

Lemma truncateFrom_one (n cur c : N) :
  truncateFrom n cur [c] =
  if cur + unitBytes c =? n then [c]
  else if n <? cur + unitBytes c then [] else [c].
Proof. reflexivity. Qed.

Lemma truncateFrom_two (n cur c d : N) (s : jsstring) :
  truncateFrom n cur (c :: d :: s) =
  if isHighSurrogate c && isLowSurrogate d then
    if cur + 4 =? n then [c; d]
    else if n <? cur + 4 then []
    else c :: d :: truncateFrom n (cur + 4) s
  else
    if cur + unitBytes c =? n then [c]
    else if n <? cur + unitBytes c then []
    else c :: truncateFrom n (cur + unitBytes c) (d :: s).
Proof. reflexivity. Qed.

(** Truncating twice cuts nothing more. *)
Lemma truncateFrom_idempotent (n : N) (s : jsstring) :
  forall cur,
    truncateFrom n cur (truncateFrom n cur s) = truncateFrom n cur s.
Proof.
  induction s as [| c | c d s IHs IHd] using pair_ind; intros cur.
  - reflexivity.
  - rewrite truncateFrom_one. destruct (_ =? _) eqn:E1.
    { now rewrite truncateFrom_one, E1. }
    destruct (_ <? _) eqn:E2; [reflexivity|].
    now rewrite truncateFrom_one, E1, E2.
  - rewrite truncateFrom_two.
    destruct (isHighSurrogate c && isLowSurrogate d) eqn:Epair.
    + destruct (_ =? _) eqn:E1.
      { now rewrite truncateFrom_two, Epair, E1. }
      destruct (_ <? _) eqn:E2; [reflexivity|].
      now rewrite truncateFrom_two, Epair, E1, E2, IHs.
    + destruct (_ =? _) eqn:E1.
      { now rewrite truncateFrom_one, E1. }
      destruct (_ <? _) eqn:E2; [reflexivity|].
      specialize (IHd (cur + unitBytes c)).
      destruct (truncateFrom_head n (cur + unitBytes c) d s) as [E|[rest E]];
        rewrite E in IHd |- *.
      * now rewrite truncateFrom_one, E1, E2.
      * now rewrite truncateFrom_two, Epair, E1, E2, IHd.
Qed.

Lemma truncate_idempotent (s : jsstring) (n : N) :
  truncate (truncate s n) n = truncate s n.
Proof. apply truncateFrom_idempotent. Qed.

(** *** The whole chain *)

Lemma sanitize_clean (x : jsstring) :
  Forall (fun c => clean c = true) (sanitize x).
Proof.
  unfold sanitize. apply truncate_Forall, dropTrailing_Forall.
  pose proof (dropControl_clean _ (dropIllegal_clean x)) as H.
  destruct (dropReserved_cases (dropControl (dropIllegal x))) as [->|[-> _]].
  - destruct (dropWindowsReserved_cases (dropControl (dropIllegal x)))
      as [->|[-> _]]; [exact H|constructor].
  - cbn. constructor.
Qed.

Lemma sanitize_truncated (x : jsstring) :
  truncate (sanitize x) 255 = sanitize x.
Proof. unfold sanitize. apply truncate_idempotent. Qed.

Lemma dropReserved_length (s : jsstring) :
  (List.length (dropReserved s) <= List.length s)%nat.
Proof. destruct (dropReserved_cases s) as [->|[-> _]]; simpl; lia. Qed.

Lemma dropWindowsReserved_length (s : jsstring) :
  (List.length (dropWindowsReserved s) <= List.length s)%nat.
Proof. destruct (dropWindowsReserved_cases s) as [->|[-> _]]; simpl; lia. Qed.

(** After the first replacement no step makes the string longer. *)
Lemma sanitize_length_dropIllegal (x : jsstring) :
  (List.length (sanitize x) <= List.length (dropIllegal x))%nat.
Proof.
  unfold sanitize.
  etransitivity; [apply truncate_length|].
  etransitivity; [apply dropTrailing_length|].
  etransitivity; [apply dropWindowsReserved_length|].
  etransitivity; [apply dropReserved_length|].
  apply filter_length_le.
Qed.

Lemma sanitize_length (x : jsstring) :
  (List.length (sanitize x) <= List.length x)%nat.
Proof.
  etransitivity; [apply sanitize_length_dropIllegal|apply filter_length_le].
Qed.

(** A string with an illegal character is never its own sanitized
    form. *)
Lemma sanitize_illegal_changes (x : jsstring) (c : N) :
  In c x -> illegal c = true -> sanitize x <> x.
Proof.
  intros Hin Hc E.
  pose proof (sanitize_length_dropIllegal x) as H1.
  assert (H2 : (List.length (dropIllegal x) < List.length x)%nat).
  { apply filter_length_lt with (x := c); [exact Hin|]. now rewrite Hc. }
  rewrite E in H1. lia.
Qed.

Lemma dots_clean (s : jsstring) :
  forallb isDot s = true -> Forall (fun c => clean c = true) s.
Proof.
  intros H. apply Forall_forall. intros c Hc.
  rewrite forallb_forall in H. specialize (H _ Hc).
  unfold isDot in H. apply N.eqb_eq in H as ->. reflexivity.
Qed.

Lemma clean_dropIllegal (s : jsstring) :
  Forall (fun c => clean c = true) s -> dropIllegal s = s.
Proof.
  intros H. apply filter_fixed. eapply Forall_impl; [|exact H].
  intros c Hc. unfold clean in Hc. now apply andb_true_iff in Hc as [-> _].
Qed.

Lemma clean_dropControl (s : jsstring) :
  Forall (fun c => clean c = true) s -> dropControl s = s.
Proof.
  intros H. apply filter_fixed. eapply Forall_impl; [|exact H].
  intros c Hc. unfold clean in Hc. now apply andb_true_iff in Hc as [_ ->].
Qed.

(** [.], [..] and their longer kin are sanitized to the empty string. *)
Lemma sanitize_reserved (x : jsstring) :
  reserved x = true -> sanitize x = [].
Proof.
  intros H. unfold sanitize.
  assert (Hclean : Forall (fun c => clean c = true) x).
  { apply dots_clean. unfold reserved in H. now apply andb_true_iff in H. }
  rewrite (clean_dropIllegal _ Hclean), (clean_dropControl _ Hclean).
  unfold dropReserved. rewrite H. reflexivity.
Qed.

(** On a string that is clean and within the byte limit, [sanitize]
    changes nothing exactly when the string is no device name and does
    not end in a dot or a space. *)
Lemma sanitize_fixed_iff (y : jsstring) :
  Forall (fun c => clean c = true) y ->
  truncate y 255 = y ->
  (sanitize y = y <->
   windowsReserved y = false /\ endsDotOrSpace y = false).
Proof.
  intros Hclean Htrunc. unfold sanitize.
  rewrite (clean_dropIllegal _ Hclean), (clean_dropControl _ Hclean).
  split.
  - intros E. split.
    + destruct (windowsReserved y) eqn:Hw; [exfalso|reflexivity].
      apply (@windowsReserved_nonempty y Hw). rewrite <- E.
      unfold dropReserved. destruct (reserved y); [reflexivity|].
      unfold dropWindowsReserved. now rewrite Hw.
    + destruct (endsDotOrSpace y) eqn:He; [exfalso|reflexivity].
      pose proof (@dropTrailing_shorter y He) as Hlt.
      assert (Hle : (List.length y <= List.length (dropTrailing y))%nat).
      { rewrite <- E at 1.
        etransitivity; [apply truncate_length|].
        destruct (dropReserved_cases y) as [->|[-> _]].
        - destruct (dropWindowsReserved_cases y) as [->|[-> _]];
            [reflexivity|simpl; lia].
        - simpl; lia. }
      lia.
  - intros [Hw He].
    assert (Hr : reserved y = false).
    { destruct (reserved y) eqn:Hr; [|reflexivity].
      apply reserved_endsDot in Hr. congruence. }
    unfold dropReserved, dropWindowsReserved. rewrite Hr, Hw.
    apply dropTrailing_fixed_iff in He. now rewrite He.
Qed.

End SanitizeFacts.

(* ================================================================= *)
(** ** Path sanitizer *)

Import SanitizeFilename.

(** C4, as the code has it.  Sanitizing a sanitized string gives it back
    exactly when the sanitized string is not a Windows device name
    (con, prn, aux, nul, com0-com9, lpt0-lpt9, with or without an
    extension) and does not end in a dot or a space.  The first can
    arise because the trailing dots and spaces are stripped after the
    device names are looked for, the second because the cut at 255 bytes
    comes last. *)
Theorem sanitize_twice_iff (x : jsstring) :
  sanitize (sanitize x) = sanitize x <->
  windowsReserved (sanitize x) = false /\ endsDotOrSpace (sanitize x) = false.
Proof.
  apply SanitizeFacts.sanitize_fixed_iff.
  - apply SanitizeFacts.sanitize_clean.
  - apply SanitizeFacts.sanitize_truncated.
Qed.

Lemma sanitize_twice_iff_witness :
  sanitize (sanitize (str "a/b.txt")) = sanitize (str "a/b.txt").
Proof.
  apply (proj2 (sanitize_twice_iff (str "a/b.txt"))). split; reflexivity.
Defined.

(** C4 as stated fails: [sanitize("con .")] is ["con"], which
    [sanitize] turns into the empty string. *)
Lemma sanitize_not_idempotent :
  sanitize (str "con .") = str "con"
  /\ sanitize (sanitize (str "con .")) = []
  /\ sanitize (sanitize (str "con .")) <> sanitize (str "con .").
Proof. repeat split. vm_compute. discriminate. Qed.

(** The cut at 255 bytes can expose a dot, which a second pass strips. *)
Example sanitize_cut_exposes_dot :
  let x := List.repeat 97 254 ++ str ".b" in
  sanitize x = List.repeat 97 254 ++ str "."
  /\ sanitize (sanitize x) = List.repeat 97 254.
Proof. split; vm_compute; reflexivity. Qed.

Example sanitize_plain : sanitize (str "alice") = str "alice".
Proof. reflexivity. Qed.

Example sanitize_separators : sanitize (str "../etc/passwd") = str "..etcpasswd".
Proof. reflexivity. Qed.

Example sanitize_dotdot : sanitize (str "..") = [].
Proof. reflexivity. Qed.

Example sanitize_device : sanitize (str "CON.txt") = [].
Proof. reflexivity. Qed.

(* ================================================================= *)
(** ** Registration *)

Lemma hasSeparator_illegal (s : jsstring) :
  hasSeparator s = true -> exists c, In c s /\ illegal c = true.
Proof.
  unfold hasSeparator. intros H. apply existsb_exists in H as (c & Hin & Hc).
  exists c. split; [exact Hin|].
  apply orb_true_iff in Hc as [Hc|Hc]; apply N.eqb_eq in Hc; now subst c.
Qed.

Lemma register_unclean (e : Env) (w : World) (body : Credentials) :
  missing (bodyUsername body) = false ->
  missing (bodyPassword body) = false ->
  sanitize (fieldValue (bodyUsername body)) <> fieldValue (bodyUsername body) ->
  register e w body = (Json 400 (ErrorMessage msgInvalidUsername), []).
Proof.
  intros Hu Hp Hs. unfold register. rewrite Hu, Hp. simpl.
  apply jseqb_neq in Hs. now rewrite Hs.
Qed.

(** C2, as the code has it.  A username with a path separator in it, or
    one made of dots only (such as [..]), is never registered: the
    answer is a 400 and nothing is done, and when the password is
    present the message is the one for an invalid username. *)
Theorem register_rejects_separator
  (e : Env) (w : World) (body : Credentials) (name : jsstring) :
  bodyUsername body = Some name ->
  hasSeparator name = true \/ reserved name = true ->
  exists message,
    register e w body = (Json 400 (ErrorMessage message), [])
    /\ (missing (bodyPassword body) = false -> message = msgInvalidUsername).
Proof.
  intros Hname Hbad.
  assert (Hne : missing (bodyUsername body) = false).
  { rewrite Hname. destruct name as [|c name]; [|reflexivity].
    destruct Hbad as [H|H]; discriminate H. }
  destruct (missing (bodyPassword body)) eqn:Hp.
  - exists msgRequired. split; [|discriminate].
    unfold register. now rewrite Hne, Hp.
  - exists msgInvalidUsername. split; [|reflexivity].
    apply register_unclean; try assumption.
    rewrite Hname. simpl. destruct Hbad as [H|H].
    + destruct (hasSeparator_illegal _ H) as (c & Hin & Hc).
      now apply SanitizeFacts.sanitize_illegal_changes with (c := c).
    + rewrite (SanitizeFacts.sanitize_reserved _ H).
      intros E. subst name. discriminate H.
Qed.

Lemma register_rejects_separator_witness :
  exists message,
    register Demo.env Demo.anonymous
      {| bodyUsername := Some (str "../alice"); bodyPassword := Some (str "pw") |}
    = (Json 400 (ErrorMessage message), [])
    /\ (false = false -> message = msgInvalidUsername).
Proof.
  apply (@register_rejects_separator Demo.env Demo.anonymous
           {| bodyUsername := Some (str "../alice");
              bodyPassword := Some (str "pw") |} (str "../alice")).
  - reflexivity.
  - left. reflexivity.
Defined.

(** C2 as stated fails: [a..b] contains two dots in a row, and the
    account is created. *)
Lemma register_accepts_inner_dotdot :
  hasDotDot (str "a..b") = true
  /\ register Demo.env Demo.anonymous
       {| bodyUsername := Some (str "a..b"); bodyPassword := Some (str "pw") |}
     = (Json 200 (OkUsername (str "a..b")),
        [SaveUsers {| users := [Demo.alice;
                                {| id := 2; username := str "a..b";
                                   passwordHash := str "$2a$10$pw" |}];
                      nextId := 3 |};
         MkdirSync (str "/app/uploads/a..b");
         SessionSet {| userId := 2; sessionUsername := str "a..b" |}]).
Proof. split; reflexivity. Qed.

(** What a registration that passes the three checks does. *)
Lemma register_success (e : Env) (w : World) (body : Credentials) :
  missing (bodyUsername body) = false ->
  missing (bodyPassword body) = false ->
  sanitize (fieldValue (bodyUsername body)) = fieldValue (bodyUsername body) ->
  findUser (loadUsers w) (fieldValue (bodyUsername body)) = None ->
  let name := fieldValue (bodyUsername body) in
  let user := {| id := nextId (usersFile w); username := name;
                 passwordHash := hashSync e (fieldValue (bodyPassword body)) |} in
  register e w body =
  (Json 200 (OkUsername name),
   SaveUsers {| users := users (usersFile w) ++ [user];
                nextId := increment (nextId (usersFile w)) |}
     :: ensureDir w (Path.join [UPLOADS_DIR e; name])
     ++ [SessionSet {| userId := nextId (usersFile w);
                       sessionUsername := name |}]).
Proof.
  intros Hu Hp Hs Hf. unfold register. rewrite Hu, Hp. simpl.
  rewrite Hs, jseqb_refl. simpl. rewrite Hf. reflexivity.
Qed.

(** [register] either fails with a 400 and no effect, or succeeds as in
    [register_success]. *)
Lemma register_cases (e : Env) (w : World) (body : Credentials) :
  (exists message, register e w body = (Json 400 (ErrorMessage message), []))
  \/ (missing (bodyUsername body) = false
      /\ missing (bodyPassword body) = false
      /\ sanitize (fieldValue (bodyUsername body)) = fieldValue (bodyUsername body)
      /\ findUser (loadUsers w) (fieldValue (bodyUsername body)) = None).
Proof.
  unfold register.
  destruct (missing (bodyUsername body)); [left; eexists; reflexivity|].
  destruct (missing (bodyPassword body)); [left; eexists; reflexivity|]. simpl.
  destruct (jseqb_spec (sanitize (fieldValue (bodyUsername body)))
              (fieldValue (bodyUsername body))) as [Hs|Hs]; [|left; eexists; reflexivity].
  simpl.
  destruct (findUser (loadUsers w) (fieldValue (bodyUsername body)));
    [left; eexists; reflexivity|].
  right. auto.
Qed.

(** C9.  A registration that fails, for a missing field, a username
    that is not its own sanitized form or a username already taken,
    answers 400 and does nothing else: the users file is not saved, no
    directory is made and the session is not touched. *)
Theorem register_failure_atomic (e : Env) (w : World) (body : Credentials) :
  missing (bodyUsername body) = true
  \/ missing (bodyPassword body) = true
  \/ sanitize (fieldValue (bodyUsername body)) <> fieldValue (bodyUsername body)
  \/ findUser (loadUsers w) (fieldValue (bodyUsername body)) <> None ->
  (exists message, register e w body = (Json 400 (ErrorMessage message), []))
  /\ snd (register e w body) = []
  /\ run w (snd (register e w body)) = w.
Proof.
  intros Hfail.
  assert (H : exists message,
             register e w body = (Json 400 (ErrorMessage message), [])).
  { destruct (register_cases e w body) as [H|(Hu & Hp & Hs & Hf)]; [exact H|].
    destruct Hfail as [H|[H|[H|H]]]; congruence. }
  split; [exact H|]. destruct H as [message ->]. now split.
Qed.

Lemma register_failure_atomic_witness :
  (exists message,
      register Demo.env Demo.anonymous
        {| bodyUsername := Some (str "alice"); bodyPassword := Some (str "pw") |}
      = (Json 400 (ErrorMessage message), []))
  /\ snd (register Demo.env Demo.anonymous
            {| bodyUsername := Some (str "alice");
               bodyPassword := Some (str "pw") |}) = []
  /\ run Demo.anonymous
       (snd (register Demo.env Demo.anonymous
               {| bodyUsername := Some (str "alice");
                  bodyPassword := Some (str "pw") |})) = Demo.anonymous.
Proof.
  apply (register_failure_atomic Demo.env Demo.anonymous
           {| bodyUsername := Some (str "alice");
              bodyPassword := Some (str "pw") |}).
  right. right. right. vm_compute. discriminate.
Defined.

(* ================================================================= *)
(** ** The users file *)

Lemma findUser_none (db : Db) (name : jsstring) :
  findUser db name = None -> ~ In name (map username (users db)).
Proof.
  unfold findUser. intros H Hin. apply in_map_iff in Hin as (u & Hu & Hin).
  pose proof (find_none _ _ H u Hin) as Hne. simpl in Hne.
  rewrite Hu, jseqb_refl in Hne. discriminate Hne.
Qed.

Lemma increment_exact (n : N) : n < 2 ^ 53 -> increment n = n + 1.
Proof.
  intros H. unfold increment. apply N.ltb_lt in H. now rewrite H.
Qed.

(** The counter never goes down, and never comes back to 0. *)
Lemma increment_le (n : N) : n <= increment n.
Proof.
  unfold increment. destruct (n <? 2 ^ 53); [lia|].
  destruct (n <? 2 ^ 54); [|lia]. destruct (N.even (n / 2)); lia.
Qed.

(** A new user with a fresh name keeps the names distinct, whatever the
    counter becomes. *)
Lemma uniqueUsernames_create (db : Db) (name hash : jsstring) (next : N) :
  uniqueUsernames db ->
  findUser db name = None ->
  uniqueUsernames
    {| users := users db ++ [{| id := nextId db; username := name;
                                passwordHash := hash |}];
       nextId := next |}.
Proof.
  intros Huniq Hfresh.
  unfold uniqueUsernames in *. simpl. rewrite map_app. simpl.
  apply NoDup_app; [exact Huniq|constructor; [easy|constructor]|].
  intros n Hn [<-|[]]. now apply (findUser_none db name).
Qed.

Lemma storeInvariant_create (db : Db) (name hash : jsstring) :
  nextId db < 2 ^ 53 ->
  storeInvariant db ->
  findUser db name = None ->
  storeInvariant
    {| users := users db ++ [{| id := nextId db; username := name;
                                passwordHash := hash |}];
       nextId := increment (nextId db) |}.
Proof.
  intros Hbound [Hids Huniq] Hfresh. split.
  - intros u Hu. simpl in *. rewrite (increment_exact _ Hbound).
    apply in_app_iff in Hu as [Hu|[<-|[]]].
    + specialize (Hids u Hu). lia.
    + simpl. lia.
  - now apply uniqueUsernames_create.
Qed.

(** C8, as the code has it.  The users file the server starts with
    satisfies the invariant (every id in the file is below [nextId], no
    username twice).  Whatever a registration request leaves in the
    file has no username twice; and it has every id below [nextId]
    again whenever [nextId] was below 2^53, the range in which
    [db.nextId++] is exact. *)
Theorem register_preserves_invariant :
  storeInvariant emptyDb
  /\ forall (e : Env) (w : World) (body : Credentials),
       storeInvariant (usersFile w) ->
       uniqueUsernames (usersFile (run w (snd (register e w body))))
       /\ (nextId (usersFile w) < 2 ^ 53 ->
           storeInvariant (usersFile (run w (snd (register e w body))))).
Proof.
  split.
  - split; [intros u []|constructor].
  - intros e w body Hinv.
    destruct (register_cases e w body) as [[message ->]|(Hu & Hp & Hs & Hf)].
    { split; [apply Hinv|intros _; exact Hinv]. }
    rewrite (register_success e w body Hu Hp Hs Hf). cbn [snd].
    unfold ensureDir. destruct (existsSync w _); cbn;
      (split; [apply uniqueUsernames_create; [apply Hinv|exact Hf]
              |intros Hbound; now apply storeInvariant_create]).
Qed.

Lemma register_preserves_invariant_witness :
  storeInvariant
    (usersFile
       (run Demo.anonymous
          (snd (register Demo.env Demo.anonymous
                  {| bodyUsername := Some (str "bob");
                     bodyPassword := Some (str "hunter2") |})))).
Proof.
  refine (proj2 (proj2 register_preserves_invariant Demo.env Demo.anonymous
                   {| bodyUsername := Some (str "bob");
                      bodyPassword := Some (str "hunter2") |} _) _).
  - split.
    + intros u [<-|[]]. vm_compute. reflexivity.
    + repeat constructor. intros [].
  - reflexivity.
Defined.

(** C8 as stated fails.  At [nextId] 2^53 the increment leaves the
    number as it is: the file satisfies the invariant, the registration
    succeeds, and the file it saves has a user whose id equals
    [nextId]. *)
Lemma register_counter_stuck :
  let w := {| usersFile := {| users := []; nextId := 2 ^ 53 |};
              files := Demo.disk; session := None |} in
  let body := {| bodyUsername := Some (str "bob");
                 bodyPassword := Some (str "hunter2") |} in
  storeInvariant (usersFile w)
  /\ fst (register Demo.env w body) = Json 200 (OkUsername (str "bob"))
  /\ usersFile (run w (snd (register Demo.env w body)))
     = {| users := [{| id := 2 ^ 53; username := str "bob";
                       passwordHash := str "$2a$10$hunter2" |}];
          nextId := 2 ^ 53 |}
  /\ ~ storeInvariant (usersFile (run w (snd (register Demo.env w body)))).
Proof.
  intros w body. split; [|split; [|split]].
  - split; [intros u []|constructor].
  - reflexivity.
  - reflexivity.
  - intros [Hids _].
    specialize (Hids {| id := 2 ^ 53; username := str "bob";
                        passwordHash := str "$2a$10$hunter2" |}
                  (or_introl eq_refl)).
    vm_compute in Hids. discriminate Hids.
Qed.

(** Usernames are compared exactly, so [Alice] is free while [alice]
    is taken. *)
Example register_case_sensitive :
  fst (register Demo.env Demo.anonymous
         {| bodyUsername := Some (str "Alice"); bodyPassword := Some (str "pw") |})
  = Json 200 (OkUsername (str "Alice"))
  /\ register Demo.env Demo.anonymous
       {| bodyUsername := Some (str "alice"); bodyPassword := Some (str "pw") |}
     = (Json 400 (ErrorMessage msgUserExists), []).
Proof. split; reflexivity. Qed.

(** A successful registration hands out the old [nextId] and
    increments the counter. *)
Lemma register_issues_nextId (e : Env) (w : World) (body : Credentials) (name : jsstring) :
  fst (register e w body) = Json 200 (OkUsername name) ->
  let db' := usersFile (run w (snd (register e w body))) in
  nextId db' = increment (nextId (usersFile w))
  /\ exists hash,
       users db' = users (usersFile w)
                     ++ [{| id := nextId (usersFile w); username := name;
                            passwordHash := hash |}].
Proof.
  intros Hok.
  destruct (register_cases e w body) as [[message E]|(Hu & Hp & Hs & Hf)].
  - rewrite E in Hok. discriminate Hok.
  - rewrite (register_success e w body Hu Hp Hs Hf) in *. cbn [fst snd] in *.
    injection Hok as ->.
    unfold ensureDir. destruct (existsSync w _); cbn;
      (split; [reflexivity|eexists; reflexivity]).
Qed.

(* ================================================================= *)
(** ** Login *)

(** C7.  With both fields present, a login for a name that is not in
    the users file and a login for a user of the file with a password
    that bcrypt rejects get the same answer, status 400 with the one
    message for bad credentials, and neither touches the session. *)
Theorem login_failures_indistinguishable
  (e : Env) (w : World) (unknown wrong : Credentials) (user : User) :
  missing (bodyUsername unknown) = false ->
  missing (bodyPassword unknown) = false ->
  missing (bodyUsername wrong) = false ->
  missing (bodyPassword wrong) = false ->
  findUser (loadUsers w) (fieldValue (bodyUsername unknown)) = None ->
  findUser (loadUsers w) (fieldValue (bodyUsername wrong)) = Some user ->
  compareSync e (fieldValue (bodyPassword wrong)) (passwordHash user) = false ->
  login e w unknown = login e w wrong
  /\ login e w unknown = (Json 400 (ErrorMessage msgBadCredentials), []).
Proof.
  intros Hu1 Hp1 Hu2 Hp2 Hnone Hsome Hcmp.
  unfold login. rewrite Hu1, Hp1, Hu2, Hp2. simpl.
  rewrite Hnone, Hsome, Hcmp. simpl. now split.
Qed.

Lemma login_failures_indistinguishable_witness :
  login Demo.env Demo.anonymous
    {| bodyUsername := Some (str "bob"); bodyPassword := Some (str "secret123") |}
  = login Demo.env Demo.anonymous
      {| bodyUsername := Some (str "alice"); bodyPassword := Some (str "guess") |}
  /\ login Demo.env Demo.anonymous
       {| bodyUsername := Some (str "bob"); bodyPassword := Some (str "secret123") |}
     = (Json 400 (ErrorMessage msgBadCredentials), []).
Proof.
  apply (login_failures_indistinguishable Demo.env Demo.anonymous
           {| bodyUsername := Some (str "bob");
              bodyPassword := Some (str "secret123") |}
           {| bodyUsername := Some (str "alice");
              bodyPassword := Some (str "guess") |}
           Demo.alice); reflexivity.
Defined.

(** The right password, for contrast, logs [alice] in. *)
Example login_alice :
  login Demo.env Demo.anonymous
    {| bodyUsername := Some (str "alice"); bodyPassword := Some (str "secret123") |}
  = (Json 200 (OkUsername (str "alice")),
     [SessionSet {| userId := 1; sessionUsername := str "alice" |}]).
Proof. reflexivity. Qed.

(** Every session the two handlers open carries a username that is not
    empty, which [storage.destination] relies on. *)
Lemma register_session_named (e : Env) (w : World) (body : Credentials) (s : Session) :
  In (SessionSet s) (snd (register e w body)) ->
  JsString.truthy (sessionUsername s) = true.
Proof.
  destruct (register_cases e w body) as [[message ->]|(Hu & Hp & Hs & Hf)];
    [intros []|].
  rewrite (register_success e w body Hu Hp Hs Hf). cbn [snd].
  intros [H|H]; [discriminate H|].
  apply in_app_iff in H as [H|[H|[]]].
  - unfold ensureDir in H. destruct (existsSync w _); [destruct H|].
    destruct H as [H|[]]. discriminate H.
  - injection H as <-. simpl.
    destruct (bodyUsername body) as [[|c n]|]; simpl in *; congruence.
Qed.

Lemma login_session_named (e : Env) (w : World) (body : Credentials) (s : Session) :
  In (SessionSet s) (snd (login e w body)) ->
  JsString.truthy (sessionUsername s) = true.
Proof.
  unfold login.
  destruct (missing (bodyUsername body)) eqn:Hu; [intros []|].
  destruct (missing (bodyPassword body)); [intros []|]. simpl.
  destruct (findUser _ _) as [user|] eqn:Hf; [|intros []].
  destruct (compareSync e _ _); simpl; [|intros []].
  intros [H|[]]. injection H as <-. simpl.
  unfold findUser in Hf. apply find_some in Hf as [_ Hf].
  apply jseqb_eq in Hf. rewrite Hf.
  destruct (bodyUsername body) as [[|c n]|]; simpl in *; congruence.
Qed.

(* ================================================================= *)
(** ** Uploads *)

Lemma ensureDir_writes_nothing (w : World) (dir : jsstring) :
  existsb writesUpload (ensureDir w dir) = false.
Proof. unfold ensureDir. now destruct (existsSync w dir). Qed.

Lemma destination_logged_in (e : Env) (w : World) :
  (forall s, session w = Some s -> JsString.truthy (sessionUsername s) = true) ->
  requireLogin w = true ->
  exists dir, destination e w = Some dir.
Proof.
  unfold requireLogin, destination. intros Hnamed Hlogin.
  destruct (session w) as [s|]; [|discriminate].
  rewrite (Hnamed s eq_refl). eauto.
Qed.

(** The four ways an upload that carries a file can end. *)
Lemma upload_cases (e : Env) (w : World) (now random : N) (file : FilePart) :
  (forall s, session w = Some s -> JsString.truthy (sessionUsername s) = true) ->
  let outcome := upload e w now random (Some file) in
  (requireLogin w = false
   /\ outcome = (Json 401 (ErrorMessage msgUnauthorized), []))
  \/ (requireLogin w = true /\ fileFilter file = false
      /\ outcome = (NextError (FilterError msgNotAllowed), []))
  \/ (requireLogin w = true /\ fileFilter file = true
      /\ fileSizeLimit < size file
      /\ exists dir, destination e w = Some dir
           /\ outcome = (NextError LimitFileSize, ensureDir w dir))
  \/ (requireLogin w = true /\ fileFilter file = true
      /\ size file <= fileSizeLimit
      /\ exists dir, destination e w = Some dir
           /\ outcome = (Redirect (str "/"),
                         ensureDir w dir
                           ++ [WriteUpload
                                 (Path.join [dir; filename now random file])
                                 (size file)])).
Proof.
  intros Hnamed outcome. subst outcome. unfold upload.
  destruct (requireLogin w) eqn:Hlogin; [|left; now split].
  destruct (fileFilter file) eqn:Hfilter; [|right; left; now repeat split].
  destruct (destination_logged_in e w Hnamed Hlogin) as [dir Hdir].
  rewrite Hdir. simpl. unfold exceedsLimit.
  destruct (N.ltb_spec fileSizeLimit (size file)) as [Hbig|Hfits].
  - right; right; left. repeat split; try assumption. now exists dir.
  - right; right; right. repeat split; try assumption. now exists dir.
Qed.

(** C5.  An upload is checked in this order, and the first check that
    fails decides the answer: no login, 401 [Unauthorized]; an
    extension that, lower-cased, is neither [.lua] nor [.txt], the
    error of [fileFilter]; more than 5 MiB, multer's
    [LIMIT_FILE_SIZE].  A file is written exactly when all three
    pass. *)
Theorem upload_validation_order
  (e : Env) (w : World) (now random : N) (file : FilePart) :
  (forall s, session w = Some s -> JsString.truthy (sessionUsername s) = true) ->
  let outcome := upload e w now random (Some file) in
  let ext := JsString.toLowerCase (Path.extname (originalname file)) in
  (requireLogin w = false ->
     outcome = (Json 401 (ErrorMessage msgUnauthorized), []))
  /\ (requireLogin w = true -> ALLOWED_EXT_has ext = false ->
        outcome = (NextError (FilterError msgNotAllowed), []))
  /\ (requireLogin w = true -> ALLOWED_EXT_has ext = true ->
      fileSizeLimit < size file ->
        fst outcome = NextError LimitFileSize
        /\ existsb writesUpload (snd outcome) = false)
  /\ (requireLogin w = true -> ALLOWED_EXT_has ext = true ->
      size file <= fileSizeLimit ->
        fst outcome = Redirect (str "/")
        /\ exists dir,
             destination e w = Some dir
             /\ In (WriteUpload (Path.join [dir; filename now random file])
                      (size file))
                  (snd outcome))
  /\ (existsb writesUpload (snd outcome) = true <->
      requireLogin w = true /\ ALLOWED_EXT_has ext = true
      /\ size file <= fileSizeLimit).
Proof.
  intros Hnamed outcome ext.
  change (ALLOWED_EXT_has ext) with (fileFilter file).
  destruct (upload_cases e w now random file Hnamed)
    as [(Hl & E)|[(Hl & Hf & E)|[(Hl & Hf & Hs & dir & Hd & E)
                                |(Hl & Hf & Hs & dir & Hd & E)]]];
    fold outcome in E; rewrite E; cbn [fst snd];
    rewrite ?ensureDir_writes_nothing;
    repeat split; try congruence; try lia; try (intros; discriminate);
    try (intros (? & ? & ?); congruence || lia).
  - exists dir. split; [exact Hd|]. apply in_or_app. right. now left.
  - intros _. rewrite existsb_app. simpl. now rewrite orb_true_r.
Qed.

Lemma upload_validation_order_witness :
  upload Demo.env Demo.asAlice 1700000000000 42
    (Some {| originalname := str "image.png"; size := 10 |})
  = (NextError (FilterError msgNotAllowed), []).
Proof.
  refine (proj1 (proj2 (upload_validation_order Demo.env Demo.asAlice
                          1700000000000 42
                          {| originalname := str "image.png"; size := 10 |}
                          _)) _ _).
  - intros s H. injection H as <-. reflexivity.
  - reflexivity.
  - reflexivity.
Defined.

(** The extension is compared without regard to case, and the check on
    the extension comes before the one on the size. *)
Example upload_upper_case :
  upload Demo.env Demo.asAlice 1700000000000 42
    (Some {| originalname := str "Script.LUA"; size := 10 |})
  = (Redirect (str "/"),
     [WriteUpload (str "/app/uploads/alice/1700000000000-42-Script.LUA") 10]).
Proof. reflexivity. Qed.

Example upload_png_too_large :
  upload Demo.env Demo.asAlice 1700000000000 42
    (Some {| originalname := str "image.png"; size := 6 * 1024 * 1024 |})
  = (NextError (FilterError msgNotAllowed), []).
Proof. reflexivity. Qed.

Example upload_anonymous :
  upload Demo.env Demo.anonymous 1700000000000 42
    (Some {| originalname := str "image.png"; size := 6 * 1024 * 1024 |})
  = (Json 401 (ErrorMessage msgUnauthorized), []).
Proof. reflexivity. Qed.

(** C6.  For a logged-in caller and an allowed extension, a file of
    exactly 5 * 1024 * 1024 bytes is written and one byte more is
    refused with [LIMIT_FILE_SIZE]. *)
Theorem upload_size_boundary
  (e : Env) (w : World) (now random : N) (name : jsstring) :
  (forall s, session w = Some s -> JsString.truthy (sessionUsername s) = true) ->
  requireLogin w = true ->
  ALLOWED_EXT_has (JsString.toLowerCase (Path.extname name)) = true ->
  let exact := {| originalname := name; size := 5 * 1024 * 1024 |} in
  let over := {| originalname := name; size := 5 * 1024 * 1024 + 1 |} in
  (fst (upload e w now random (Some exact)) = Redirect (str "/")
   /\ existsb writesUpload (snd (upload e w now random (Some exact))) = true)
  /\ (fst (upload e w now random (Some over)) = NextError LimitFileSize
      /\ existsb writesUpload (snd (upload e w now random (Some over))) = false).
Proof.
  intros Hnamed Hlogin Hext exact over.
  assert (Hexact : size exact <= fileSizeLimit) by (vm_compute; discriminate).
  assert (Hover : fileSizeLimit < size over) by reflexivity.
  split.
  - destruct (upload_cases e w now random exact Hnamed)
      as [(Hl & _)|[(_ & Hf & _)|[(_ & _ & Hs & _)|(_ & _ & _ & dir & _ & E)]]];
      [congruence|unfold fileFilter in Hf; simpl in Hf; congruence|lia|].
    cbv zeta in E. rewrite E. cbn [fst snd]. split; [reflexivity|].
    rewrite existsb_app. simpl. now rewrite orb_true_r.
  - destruct (upload_cases e w now random over Hnamed)
      as [(Hl & _)|[(_ & Hf & _)|[(_ & _ & _ & dir & _ & E)|(_ & _ & Hs & _)]]];
      [congruence|unfold fileFilter in Hf; simpl in Hf; congruence| |lia].
    cbv zeta in E. rewrite E. cbn [fst snd]. split; [reflexivity|].
    apply ensureDir_writes_nothing.
Qed.

Lemma upload_size_boundary_witness :
  let exact := {| originalname := str "big.txt"; size := 5 * 1024 * 1024 |} in
  let over := {| originalname := str "big.txt"; size := 5 * 1024 * 1024 + 1 |} in
  (fst (upload Demo.env Demo.asAlice 1700000000000 42 (Some exact))
   = Redirect (str "/")
   /\ existsb writesUpload
        (snd (upload Demo.env Demo.asAlice 1700000000000 42 (Some exact))) = true)
  /\ (fst (upload Demo.env Demo.asAlice 1700000000000 42 (Some over))
      = NextError LimitFileSize
      /\ existsb writesUpload
           (snd (upload Demo.env Demo.asAlice 1700000000000 42 (Some over))) = false).
Proof.
  apply (upload_size_boundary Demo.env Demo.asAlice 1700000000000 42 (str "big.txt")).
  - intros s H. injection H as <-. reflexivity.
  - reflexivity.
  - reflexivity.
Defined.

(** *** The stored name *)

Lemma digits_uint (d : Decimal.uint) :
  Forall (fun c => isDigit c = true) (str (NilEmpty.string_of_uint d)).
Proof. induction d; simpl; constructor; (reflexivity || assumption). Qed.

Lemma ofNumber_digits (n : N) :
  Forall (fun c => isDigit c = true) (JsString.ofNumber n).
Proof.
  unfold JsString.ofNumber, NilZero.string_of_uint.
  destruct (N.to_uint n) eqn:E; try (rewrite <- E; apply digits_uint).
  repeat constructor.
Qed.

Lemma digit_no_separator (c : N) :
  isDigit c = true -> (N.eqb c 47 || N.eqb c 92) = false.
Proof.
  unfold isDigit. intros H. apply andb_true_iff in H as [H1 H2].
  apply N.leb_le in H1. apply N.leb_le in H2.
  apply orb_false_iff. split; apply N.eqb_neq; lia.
Qed.

Lemma clean_no_separator (c : N) :
  clean c = true -> (N.eqb c 47 || N.eqb c 92) = false.
Proof.
  unfold clean. intros H. apply andb_true_iff in H as [H _].
  apply negb_true_iff in H.
  apply orb_false_iff. split; apply N.eqb_neq; intros ->; discriminate H.
Qed.

Lemma hasSeparator_app (a b : jsstring) :
  hasSeparator (a ++ b) = hasSeparator a || hasSeparator b.
Proof. apply existsb_app. Qed.

Lemma hasSeparator_none (P : N -> bool) (s : jsstring) :
  (forall c, P c = true -> (N.eqb c 47 || N.eqb c 92) = false) ->
  Forall (fun c => P c = true) s -> hasSeparator s = false.
Proof.
  intros HP Hs. unfold hasSeparator.
  induction Hs as [|c s Hc _ IH]; simpl; [reflexivity|].
  now rewrite (HP c Hc), IH.
Qed.

(** C10.  The stored name is [Date.now()], a dash, the random number, a
    dash and then the sanitized original name, or [file] when that is
    empty.  The stored name is never empty; its last component is never
    empty, is a value of [sanitize], and has no illegal or control
    character in it; and the whole name contains no path separator. *)
Theorem filename_shape (now random : N) (file : FilePart) :
  let clean_name := sanitize (originalname file) in
  let name := if JsString.truthy clean_name then clean_name else str "file" in
  filename now random file
  = JsString.ofNumber now ++ str "-" ++ JsString.ofNumber random
      ++ str "-" ++ name
  /\ filename now random file <> []
  /\ name <> []
  /\ (exists x, name = sanitize x)
  /\ Forall (fun c => clean c = true) name
  /\ hasSeparator (filename now random file) = false.
Proof.
  intros clean_name name.
  assert (Hshape : filename now random file
                   = JsString.ofNumber now ++ str "-" ++ JsString.ofNumber random
                       ++ str "-" ++ name).
  { unfold filename. fold clean_name. subst name.
    destruct clean_name; simpl; now rewrite <- ?app_assoc. }
  assert (Hclean : Forall (fun c => clean c = true) name).
  { subst name. destruct (JsString.truthy clean_name).
    - apply SanitizeFacts.sanitize_clean.
    - repeat constructor. }
  split; [exact Hshape|]. split; [|split; [|split; [|split; [exact Hclean|]]]].
  - rewrite Hshape. intros H. apply app_eq_nil in H as [_ H]. discriminate H.
  - subst name. destruct clean_name; simpl; discriminate.
  - subst name. destruct (JsString.truthy clean_name).
    + now exists (originalname file).
    + exists (str "file"). reflexivity.
  - rewrite Hshape. rewrite !hasSeparator_app.
    rewrite (hasSeparator_none isDigit _ digit_no_separator (ofNumber_digits now)).
    rewrite (hasSeparator_none isDigit _ digit_no_separator (ofNumber_digits random)).
    rewrite (hasSeparator_none clean _ clean_no_separator Hclean).
    reflexivity.
Qed.

Example filename_script :
  filename 1700000000000 42 {| originalname := str "script.lua"; size := 10 |}
  = str "1700000000000-42-script.lua".
Proof. reflexivity. Qed.

(** A name that sanitizes to nothing is stored as [file]. *)
Example filename_fallback :
  filename 1700000000000 42 {| originalname := str "aux.txt"; size := 10 |}
  = str "1700000000000-42-file".
Proof. reflexivity. Qed.

Example filename_traversal :
  filename 1700000000000 42 {| originalname := str "../../x.lua"; size := 10 |}
  = str "1700000000000-42-....x.lua".
Proof. reflexivity. Qed.

(* ================================================================= *)
(** ** Raw file server *)

(** The three branches of the handler: 400 exactly when the resolved
    file path does not start with the resolved user directory;
    otherwise 404 exactly when [fs.existsSync] finds nothing at the file
    path; otherwise the file path goes to [res.sendFile].  It has no
    effect in any case. *)
Lemma raw_decision (e : Env) (w : World) (username filename : jsstring) :
  let userDir := rawUserDir e username in
  let filePath := rawFilePath e username filename in
  let outcome := raw e w username filename in
  snd outcome = []
  /\ (fst outcome = Send 400 msgBadRequest <->
      JsString.startsWith filePath userDir = false)
  /\ (fst outcome = Send 404 msgNotFound <->
      JsString.startsWith filePath userDir = true
      /\ existsSync w filePath = false)
  /\ (fst outcome = SendFile filePath <->
      JsString.startsWith filePath userDir = true
      /\ existsSync w filePath = true).
Proof.
  intros userDir filePath outcome. subst outcome. unfold raw.
  fold userDir filePath.
  destruct (JsString.startsWith filePath userDir);
    [destruct (existsSync w filePath)|]; simpl;
    repeat split; try reflexivity; try discriminate;
    try (intros [? ?]; discriminate).
Qed.

(** [serve] is the handler followed by [res.sendFile]. *)
Lemma serve_raw
  (e : Env) (w : World) (bytesOf : jsstring -> list N)
  (username filename : jsstring) :
  let reply := fst (raw e w username filename) in
  let answer := serve e w bytesOf username filename in
  (reply = Send 400 msgBadRequest -> answer = BadRequest)
  /\ (reply = Send 404 msgNotFound -> answer = NotFound)
  /\ (forall p, reply = SendFile p -> answer = sendFile w bytesOf p).
Proof.
  unfold raw, serve.
  destruct (JsString.startsWith _ _); cbn [negb fst];
    [destruct (existsSync w _); cbn [negb fst]|];
    repeat split; try discriminate; try reflexivity.
  intros p H. now injection H as <-.
Qed.

Lemma existsSync_regular (w : World) (p : jsstring) :
  isRegularFile w p = true -> existsSync w p = true.
Proof.
  unfold isRegularFile, existsSync. now destruct (files w p) as [[|]|].
Qed.

(** C3.  The raw file server answers bad request exactly when the
    resolved target path does not start with the resolved base
    directory [uploadsRoot/sanitize(username)].  When it does, the
    answer is not found exactly when the target does not exist or is not
    a regular file, and only otherwise are the bytes of the file at the
    target streamed. *)
Theorem serve_decision
  (e : Env) (w : World) (bytesOf : jsstring -> list N)
  (username filename : jsstring) :
  let base := rawUserDir e username in
  let target := rawFilePath e username filename in
  let answer := serve e w bytesOf username filename in
  (answer = BadRequest <-> JsString.startsWith target base = false)
  /\ (JsString.startsWith target base = true ->
      (answer = NotFound <->
       existsSync w target = false \/ isRegularFile w target = false))
  /\ (answer = Stream (bytesOf target) <->
      JsString.startsWith target base = true
      /\ existsSync w target = true
      /\ isRegularFile w target = true)
  /\ (forall bytes, answer = Stream bytes -> bytes = bytesOf target).
Proof.
  intros base target answer. subst answer. unfold serve, sendFile.
  fold base target.
  destruct (JsString.startsWith target base) eqn:Hprefix; cbn [negb].
  - destruct (isRegularFile w target) eqn:Hregular.
    + rewrite (existsSync_regular w target Hregular). cbn [negb].
      split; [split; discriminate|]. split; [|split].
      * intros _. split; [discriminate|]. intros [E|E]; discriminate E.
      * split; [intros _; now repeat split|reflexivity].
      * intros bytes E. now injection E as <-.
    + split; [split; destruct (existsSync w target); discriminate|].
      split; [|split].
      * intros _. split; [intros _; now right|].
        intros _. now destruct (existsSync w target).
      * split.
        -- destruct (existsSync w target); discriminate.
        -- intros (_ & _ & E). discriminate E.
      * intros bytes E. destruct (existsSync w target); discriminate E.
  - split; [split; reflexivity|]. split; [discriminate|]. split.
    + split; [discriminate|]. intros (E & _). discriminate E.
    + discriminate.
Qed.

Lemma serve_decision_witness :
  serve Demo.env Demo.anonymous Demo.content (str "alicebob")
    (str "1700000000000-42-secret.txt")
  = Stream (Demo.content
              (rawFilePath Demo.env (str "alicebob")
                 (str "1700000000000-42-secret.txt"))).
Proof.
  apply (proj2 (proj1 (proj2 (proj2
           (serve_decision Demo.env Demo.anonymous Demo.content
              (str "alicebob") (str "1700000000000-42-secret.txt")))))).
  repeat split.
Defined.

(** The four cases on the deployment: a stored file, a missing one, the
    user's directory itself, and a path outside the directory at which
    nothing exists. *)
Example serve_cases :
  serve Demo.env Demo.anonymous Demo.content (str "alicebob")
    (str "1700000000000-42-secret.txt") = Stream (str "print(1)")
  /\ serve Demo.env Demo.anonymous Demo.content (str "alice")
       (str "missing.lua") = NotFound
  /\ serve Demo.env Demo.anonymous Demo.content (str "alice") (str ".")
     = NotFound
  /\ serve Demo.env Demo.anonymous Demo.content (str "alice")
       (str "../../nothing") = BadRequest.
Proof. repeat split. Qed.

(** For the user's directory the handler itself goes as far as
    [res.sendFile]; the 404 is the answer to that call. *)
Example raw_directory :
  raw Demo.env Demo.anonymous (str "alice") (str ".")
  = (SendFile (str "/app/uploads/alice"), [])
  /\ isRegularFile Demo.anonymous (str "/app/uploads/alice") = false
  /\ sendFile Demo.anonymous Demo.content (str "/app/uploads/alice") = NotFound.
Proof. repeat split. Qed.

Example raw_traversal_bob :
  raw Demo.env Demo.anonymous (str "alice") (str "../bob/secret.txt")
  = (Send 400 msgBadRequest, []).
Proof. reflexivity. Qed.

Example raw_absolute :
  raw Demo.env Demo.anonymous (str "alice") (str "/app/data/users.json")
  = (Send 400 msgBadRequest, []).
Proof. reflexivity. Qed.

(** What the prefix test does guarantee: a path that is sent starts,
    as a string, with the user directory. *)
Lemma raw_sent_prefix (e : Env) (w : World) (username filename p : jsstring) :
  fst (raw e w username filename) = SendFile p ->
  exists rest, p = rawUserDir e username ++ rest.
Proof.
  unfold raw.
  destruct (JsString.startsWith _ _) eqn:Hprefix; simpl; [|discriminate].
  destruct (existsSync w _); simpl; [|discriminate].
  intros H. injection H as <-. now apply startsWith_inv.
Qed.

(** C1 on the code.  [alicebob/] is a sibling of [alice/] whose path
    starts with the same characters.  Asked for
    [../alicebob/1700000000000-42-secret.txt] under [alice], the
    handler resolves the path into [alicebob/], finds that it starts
    with [/app/uploads/alice], and sends the file, which is not inside
    [/app/uploads/alice/]. *)
Theorem raw_sends_sibling_file :
  let requested := str "../alicebob/1700000000000-42-secret.txt" in
  let sent := str "/app/uploads/alicebob/1700000000000-42-secret.txt" in
  rawUserDir Demo.env (str "alice") = str "/app/uploads/alice"
  /\ raw Demo.env Demo.anonymous (str "alice") requested = (SendFile sent, [])
  /\ isRegularFile Demo.anonymous sent = true
  /\ insideDir (str "/app/uploads/alice") sent = false.
Proof. repeat split. Qed.

(** A username that sanitizes to nothing makes the uploads root the
    user directory, and every user's files are below it. *)
Example raw_empty_username :
  sanitize (str "con") = []
  /\ rawUserDir Demo.env (str "con") = str "/app/uploads"
  /\ raw Demo.env Demo.anonymous (str "con")
       (str "alicebob/1700000000000-42-secret.txt")
     = (SendFile (str "/app/uploads/alicebob/1700000000000-42-secret.txt"), []).
Proof. repeat split. Qed.

(** The file is served to its owner's URL as well. *)
Example raw_own_file :
  raw Demo.env Demo.anonymous (str "alicebob")
    (str "1700000000000-42-secret.txt")
  = (SendFile (str "/app/uploads/alicebob/1700000000000-42-secret.txt"), []).
Proof. reflexivity. Qed.

(* ================================================================= *)
(** * Further properties of [server.js] *)

(** ** Accounts and sessions *)

Lemma findUser_appended (db : Db) (i next : N) (name hash : jsstring) :
  findUser db name = None ->
  findUser {| users := users db
                         ++ [{| id := i; username := name; passwordHash := hash |}];
              nextId := next |} name
  = Some {| id := i; username := name; passwordHash := hash |}.
Proof.
  unfold findUser. simpl. induction (users db) as [|u l IH]; simpl.
  - intros _. now rewrite jseqb_refl.
  - destruct (JsString.eqb (username u) name); [discriminate|].
    exact IH.
Qed.

(** The world a successful registration leaves. *)
Lemma register_world (e : Env) (w : World) (body : Credentials) (name : jsstring) :
  fst (register e w body) = Json 200 (OkUsername name) ->
  let w' := run w (snd (register e w body)) in
  name = fieldValue (bodyUsername body)
  /\ missing (bodyUsername body) = false
  /\ missing (bodyPassword body) = false
  /\ sanitize name = name
  /\ findUser (usersFile w) name = None
  /\ usersFile w'
     = {| users := users (usersFile w)
                     ++ [{| id := nextId (usersFile w); username := name;
                            passwordHash :=
                              hashSync e (fieldValue (bodyPassword body)) |}];
          nextId := increment (nextId (usersFile w)) |}
  /\ session w' = Some {| userId := nextId (usersFile w);
                          sessionUsername := name |}
  /\ existsSync w' (Path.join [UPLOADS_DIR e; name]) = true.
Proof.
  intros Hok.
  destruct (register_cases e w body) as [[message E]|(Hu & Hp & Hs & Hf)].
  { rewrite E in Hok. discriminate Hok. }
  rewrite (register_success e w body Hu Hp Hs Hf) in *. cbn [fst snd] in *.
  injection Hok as <-.
  repeat (split; [assumption || reflexivity|]).
  unfold ensureDir.
  destruct (existsSync w (Path.join [UPLOADS_DIR e; fieldValue (bodyUsername body)]))
    eqn:Hdir; cbn.
  - repeat split. exact Hdir.
  - repeat split. unfold existsSync. cbn.
    unfold existsSync in Hdir.
    destruct (files w _); [reflexivity|].
    unfold isAncestorOrSelf. now rewrite jseqb_refl.
Qed.

(** X1.  Registering and then logging in with the same credentials
    works, whenever bcrypt accepts a password against its own hash: the
    login answers 200 with the registered name and opens the session of
    the id that was issued. *)
Theorem register_then_login
  (e : Env) (w : World) (body : Credentials) (name : jsstring) :
  (forall password, compareSync e password (hashSync e password) = true) ->
  fst (register e w body) = Json 200 (OkUsername name) ->
  login e (run w (snd (register e w body))) body
  = (Json 200 (OkUsername name),
     [SessionSet {| userId := nextId (usersFile w); sessionUsername := name |}]).
Proof.
  intros Hbcrypt Hok.
  destruct (register_world e w body name Hok)
    as (Hname & Hu & Hp & _ & Hfresh & Hdb & _ & _).
  set (w' := run w (snd (register e w body))) in *. clearbody w'.
  unfold login. rewrite Hu, Hp. simpl. unfold loadUsers. rewrite Hdb.
  rewrite <- Hname.
  rewrite (findUser_appended (usersFile w) _ _ _ _ Hfresh).
  simpl. now rewrite Hbcrypt.
Qed.

Lemma register_then_login_witness :
  login Demo.env
    (run Demo.anonymous
       (snd (register Demo.env Demo.anonymous
               {| bodyUsername := Some (str "bob");
                  bodyPassword := Some (str "hunter2") |})))
    {| bodyUsername := Some (str "bob"); bodyPassword := Some (str "hunter2") |}
  = (Json 200 (OkUsername (str "bob")),
     [SessionSet {| userId := 2; sessionUsername := str "bob" |}]).
Proof.
  apply (register_then_login Demo.env Demo.anonymous
           {| bodyUsername := Some (str "bob");
              bodyPassword := Some (str "hunter2") |} (str "bob")).
  - intros password. apply jseqb_refl.
  - reflexivity.
Defined.

(** X2.  Once a name is registered, registering it again is refused
    with the 400 for an existing user, whatever the password, and does
    nothing. *)
Theorem register_twice
  (e : Env) (w : World) (body again : Credentials) (name : jsstring) :
  fst (register e w body) = Json 200 (OkUsername name) ->
  bodyUsername again = bodyUsername body ->
  missing (bodyPassword again) = false ->
  register e (run w (snd (register e w body))) again
  = (Json 400 (ErrorMessage msgUserExists), []).
Proof.
  intros Hok Hsame Hp.
  destruct (register_world e w body name Hok)
    as (Hname & Hu & _ & Hs & Hfresh & Hdb & _ & _).
  set (w' := run w (snd (register e w body))) in *. clearbody w'.
  unfold register. rewrite Hsame, Hu, Hp. simpl. rewrite <- Hname.
  rewrite Hs, jseqb_refl. simpl. unfold loadUsers. rewrite Hdb.
  now rewrite (findUser_appended (usersFile w) _ _ _ _ Hfresh).
Qed.

Lemma register_twice_witness :
  register Demo.env
    (run Demo.anonymous
       (snd (register Demo.env Demo.anonymous
               {| bodyUsername := Some (str "bob");
                  bodyPassword := Some (str "hunter2") |})))
    {| bodyUsername := Some (str "bob"); bodyPassword := Some (str "other") |}
  = (Json 400 (ErrorMessage msgUserExists), []).
Proof.
  apply (register_twice Demo.env Demo.anonymous
           {| bodyUsername := Some (str "bob");
              bodyPassword := Some (str "hunter2") |}
           {| bodyUsername := Some (str "bob");
              bodyPassword := Some (str "other") |} (str "bob"));
    reflexivity.
Defined.

(** X3.  A login succeeds exactly when both fields are present, the
    users file has a user of that exact name and bcrypt accepts the
    password against the stored hash; the answer then carries that
    user's name. *)
Theorem login_succeeds_iff
  (e : Env) (w : World) (body : Credentials) (name : jsstring) :
  fst (login e w body) = Json 200 (OkUsername name) <->
  missing (bodyUsername body) = false
  /\ missing (bodyPassword body) = false
  /\ exists user,
       findUser (usersFile w) (fieldValue (bodyUsername body)) = Some user
       /\ compareSync e (fieldValue (bodyPassword body)) (passwordHash user) = true
       /\ name = username user.
Proof.
  unfold login, loadUsers.
  destruct (missing (bodyUsername body)); simpl.
  { split; [discriminate|intros [H _]; discriminate H]. }
  destruct (missing (bodyPassword body)); simpl.
  { split; [discriminate|intros (_ & H & _); discriminate H]. }
  destruct (findUser (usersFile w) (fieldValue (bodyUsername body))) as [user|].
  - destruct (compareSync e (fieldValue (bodyPassword body)) (passwordHash user))
      eqn:Hcmp; simpl.
    + split.
      * intros H. injection H as <-. repeat split. exists user. now repeat split.
      * intros (_ & _ & user' & Hf & _ & ->). now injection Hf as <-.
    + split; [discriminate|].
      intros (_ & _ & user' & Hf & Hc & _). injection Hf as <-. congruence.
  - split; [discriminate|]. intros (_ & _ & user' & Hf & _). discriminate Hf.
Qed.

Lemma login_succeeds_iff_witness :
  fst (login Demo.env Demo.anonymous
         {| bodyUsername := Some (str "alice");
            bodyPassword := Some (str "secret123") |})
  = Json 200 (OkUsername (str "alice")).
Proof.
  apply (proj2 (login_succeeds_iff Demo.env Demo.anonymous
                  {| bodyUsername := Some (str "alice");
                     bodyPassword := Some (str "secret123") |} (str "alice"))).
  repeat split. exists Demo.alice. repeat split.
Defined.

(** X4.  A login, whether it succeeds or not, leaves the users file
    and the disk as they were; all it can do is set the session. *)
Theorem login_touches_only_session (e : Env) (w : World) (body : Credentials) :
  let w' := run w (snd (login e w body)) in
  usersFile w' = usersFile w
  /\ files w' = files w
  /\ (session w' = session w
      \/ exists user,
           In user (users (usersFile w))
           /\ session w' = Some {| userId := id user;
                                   sessionUsername := username user |}).
Proof.
  unfold login.
  destruct (missing (bodyUsername body) || missing (bodyPassword body));
    [cbn; auto|].
  destruct (findUser (loadUsers w) (fieldValue (bodyUsername body)))
    as [user|] eqn:Hf; [|cbn; auto].
  destruct (compareSync e _ _); simpl; [|auto].
  repeat split. right. exists user. split; [|reflexivity].
  unfold findUser in Hf. now apply find_some in Hf as [Hin _].
Qed.

(** X5.  After a successful registration the caller is logged in,
    provided the id that was issued is not 0: [requireLogin] lets the
    next request through and [/api/me] names the user.  The users file
    starts with [nextId] 1 and registrations only raise it. *)
Theorem register_logs_in
  (e : Env) (w : World) (body : Credentials) (name : jsstring) :
  nextId (usersFile w) <> 0 ->
  fst (register e w body) = Json 200 (OkUsername name) ->
  let w' := run w (snd (register e w body)) in
  requireLogin w' = true
  /\ me w' = Logged name
  /\ nextId (usersFile w') <> 0.
Proof.
  intros Hid Hok w'.
  destruct (register_world e w body name Hok)
    as (_ & _ & _ & _ & _ & Hdb & Hsession & _).
  fold w' in Hdb, Hsession.
  unfold requireLogin, me. rewrite Hsession, Hdb. simpl.
  pose proof (increment_le (nextId (usersFile w))) as Hle.
  apply N.eqb_neq in Hid. rewrite Hid. simpl. repeat split.
  apply N.eqb_neq in Hid. lia.
Qed.

Lemma register_logs_in_witness :
  let w' := run Demo.anonymous
              (snd (register Demo.env Demo.anonymous
                      {| bodyUsername := Some (str "bob");
                         bodyPassword := Some (str "hunter2") |})) in
  requireLogin w' = true
  /\ me w' = Logged (str "bob")
  /\ nextId (usersFile w') <> 0.
Proof.
  apply (register_logs_in Demo.env Demo.anonymous
           {| bodyUsername := Some (str "bob");
              bodyPassword := Some (str "hunter2") |} (str "bob")).
  - discriminate.
  - reflexivity.
Defined.

(** The hypothesis on the id is needed: [req.session.userId] is tested
    for truth, and a user with id 0 is never let in. *)
Example register_id_zero :
  let w := {| usersFile := {| users := []; nextId := 0 |};
              files := Demo.disk; session := None |} in
  let body := {| bodyUsername := Some (str "bob");
                 bodyPassword := Some (str "hunter2") |} in
  fst (register Demo.env w body) = Json 200 (OkUsername (str "bob"))
  /\ requireLogin (run w (snd (register Demo.env w body))) = false.
Proof. split; reflexivity. Qed.

Lemma find_app_some {A} (f : A -> bool) (l l' : list A) (x : A) :
  find f l = Some x -> find f (l ++ l') = Some x.
Proof.
  induction l as [|a l IH]; [discriminate|]. simpl.
  destruct (f a); [easy|exact IH].
Qed.

(** X6.  Somebody else registering does not disturb an account: a
    login that succeeds keeps getting the same answer after any
    registration request, accepted or not. *)
Theorem login_stable_under_register
  (e : Env) (w : World) (body other : Credentials) (name : jsstring) :
  fst (login e w body) = Json 200 (OkUsername name) ->
  login e (run w (snd (register e w other))) body = login e w body.
Proof.
  intros Hok.
  destruct (register_cases e w other) as [[message ->]|(Hu & Hp & Hs & Hf)];
    [reflexivity|].
  rewrite (register_success e w other Hu Hp Hs Hf). cbn [snd].
  set (w' := run w _).
  assert (Hdb : usersFile w'
                = {| users := users (usersFile w)
                                ++ [{| id := nextId (usersFile w);
                                       username := fieldValue (bodyUsername other);
                                       passwordHash :=
                                         hashSync e (fieldValue (bodyPassword other)) |}];
                     nextId := increment (nextId (usersFile w)) |}).
  { subst w'. unfold ensureDir. now destruct (existsSync w _). }
  clearbody w'. unfold login in *. unfold loadUsers in *. rewrite Hdb.
  destruct (missing (bodyUsername body) || missing (bodyPassword body));
    [reflexivity|].
  unfold findUser in *. cbn [users].
  destruct (find _ (users (usersFile w))) as [user|] eqn:Efind;
    [|discriminate Hok].
  now rewrite (find_app_some _ _ _ _ Efind).
Qed.

Lemma login_stable_under_register_witness :
  login Demo.env
    (run Demo.anonymous
       (snd (register Demo.env Demo.anonymous
               {| bodyUsername := Some (str "bob");
                  bodyPassword := Some (str "hunter2") |})))
    {| bodyUsername := Some (str "alice"); bodyPassword := Some (str "secret123") |}
  = login Demo.env Demo.anonymous
      {| bodyUsername := Some (str "alice");
         bodyPassword := Some (str "secret123") |}.
Proof.
  apply (login_stable_under_register Demo.env Demo.anonymous
           {| bodyUsername := Some (str "alice");
              bodyPassword := Some (str "secret123") |}
           {| bodyUsername := Some (str "bob");
              bodyPassword := Some (str "hunter2") |} (str "alice")).
  reflexivity.
Defined.

(* ================================================================= *)
(** ** More on the sanitizer *)

Module SanitizeBounds.
Import SanitizeFilename.

Lemma byteLength_one (c : N) : byteLength [c] = unitBytes c.
Proof. reflexivity. Qed.

Lemma byteLength_two (c d : N) (s : jsstring) :
  byteLength (c :: d :: s) =
  if isHighSurrogate c && isLowSurrogate d
  then 4 + byteLength s
  else unitBytes c + byteLength (d :: s).
Proof. reflexivity. Qed.

Lemma unitBytes_bounds (c : N) : 1 <= unitBytes c <= 3.
Proof. unfold unitBytes. destruct (c <? 128); [lia|]. destruct (c <? 2048); lia. Qed.

(** What [truncateFrom] keeps fits in the bytes that are left. *)
Lemma truncateFrom_fits (n : N) (s : jsstring) :
  forall cur, cur <= n -> cur + byteLength (truncateFrom n cur s) <= n.
Proof.
  induction s as [| c | c d s IHs IHd] using SanitizeFacts.pair_ind;
    intros cur Hcur.
  - simpl. lia.
  - rewrite SanitizeFacts.truncateFrom_one.
    destruct (N.eqb_spec (cur + unitBytes c) n); [rewrite byteLength_one; lia|].
    destruct (N.ltb_spec n (cur + unitBytes c)); [simpl; lia|].
    rewrite byteLength_one; lia.
  - rewrite SanitizeFacts.truncateFrom_two.
    destruct (isHighSurrogate c && isLowSurrogate d) eqn:Epair.
    + destruct (N.eqb_spec (cur + 4) n).
      { rewrite byteLength_two, Epair. simpl. lia. }
      destruct (N.ltb_spec n (cur + 4)); [simpl; lia|].
      rewrite byteLength_two, Epair.
      specialize (IHs (cur + 4)). lia.
    + destruct (N.eqb_spec (cur + unitBytes c) n).
      { rewrite byteLength_one. lia. }
      destruct (N.ltb_spec n (cur + unitBytes c)); [simpl; lia|].
      specialize (IHd (cur + unitBytes c)).
      destruct (SanitizeFacts.truncateFrom_head n (cur + unitBytes c) d s)
        as [E|[rest E]]; rewrite E in IHd |- *.
      * rewrite byteLength_one. lia.
      * rewrite byteLength_two, Epair. lia.
Qed.

(** When [truncateFrom] cuts, what it keeps is within four bytes of the
    limit; every code unit kept stands for at most three bytes. *)
Lemma truncateFrom_cut_long (n : N) (s : jsstring) :
  forall cur,
    truncateFrom n cur s = s
    \/ n <= cur + 3 * N.of_nat (List.length (truncateFrom n cur s)) + 4.
Proof.
  induction s as [| c | c d s IHs IHd] using SanitizeFacts.pair_ind; intros cur.
  - now left.
  - rewrite SanitizeFacts.truncateFrom_one.
    destruct (N.eqb_spec (cur + unitBytes c) n); [now left|].
    destruct (N.ltb_spec n (cur + unitBytes c)); [|now left].
    right. pose proof (unitBytes_bounds c). simpl. lia.
  - rewrite SanitizeFacts.truncateFrom_two.
    pose proof (unitBytes_bounds c) as Hc.
    destruct (isHighSurrogate c && isLowSurrogate d).
    + destruct (N.eqb_spec (cur + 4) n); [right; cbn [List.length]; lia|].
      destruct (N.ltb_spec n (cur + 4)); [right; simpl; lia|].
      destruct (IHs (cur + 4)) as [->|Hcut]; [now left|].
      right. cbn [List.length]. lia.
    + destruct (N.eqb_spec (cur + unitBytes c) n); [right; cbn [List.length]; lia|].
      destruct (N.ltb_spec n (cur + unitBytes c)); [right; simpl; lia|].
      destruct (IHd (cur + unitBytes c)) as [->|Hcut]; [now left|].
      right. cbn [List.length]. lia.
Qed.

(** A result shorter than 83 code units was not cut by the limit of
    255 bytes. *)
Lemma truncate_short (s : jsstring) :
  (List.length (truncate s 255) < 83)%nat -> truncate s 255 = s.
Proof.
  intros Hshort. unfold truncate in *.
  destruct (truncateFrom_cut_long 255 s 0) as [E|H]; [exact E|lia].
Qed.

Lemma dropTrailing_ends (s : jsstring) :
  endsDotOrSpace (dropTrailing s) = false.
Proof.
  induction s as [|c s IH]; [reflexivity|].
  rewrite SanitizeFacts.dropTrailing_cons.
  destruct (dropTrailing s) as [|a acc] eqn:E.
  - destruct (dotOrSpace c) eqn:Ec; [reflexivity|].
    unfold endsDotOrSpace. simpl. exact Ec.
  - rewrite SanitizeFacts.endsDotOrSpace_cons. exact IH.
Qed.

(** Before the cut, the string is empty or ends in something else than
    a dot or a space. *)
Lemma sanitize_short_ends (x : jsstring) :
  (List.length (sanitize x) < 83)%nat -> endsDotOrSpace (sanitize x) = false.
Proof.
  intros Hshort. unfold sanitize in *.
  rewrite (truncate_short _ Hshort). apply dropTrailing_ends.
Qed.

End SanitizeBounds.

(** X7.  Whatever the input, the sanitized name takes at most 255 bytes
    in UTF-8, and so has at most 255 code units. *)
Theorem sanitize_at_most_255_bytes (x : jsstring) :
  byteLength (sanitize x) <= 255
  /\ (List.length (sanitize x) <= 255)%nat.
Proof.
  assert (Hbytes : byteLength (sanitize x) <= 255).
  { unfold sanitize, SanitizeFilename.truncate.
    pose proof (SanitizeBounds.truncateFrom_fits 255
                  (SanitizeFilename.dropTrailing
                     (SanitizeFilename.dropWindowsReserved
                        (SanitizeFilename.dropReserved
                           (SanitizeFilename.dropControl
                              (SanitizeFilename.dropIllegal x))))) 0).
    lia. }
  split; [exact Hbytes|].
  assert (Hunits : forall s : jsstring, N.of_nat (List.length s) <= byteLength s).
  { intros s. induction s as [| c | c d s IHs IHd] using SanitizeFacts.pair_ind.
    - simpl. lia.
    - rewrite SanitizeBounds.byteLength_one.
      pose proof (SanitizeBounds.unitBytes_bounds c). simpl. lia.
    - rewrite SanitizeBounds.byteLength_two.
      pose proof (SanitizeBounds.unitBytes_bounds c).
      destruct (_ && _); cbn [List.length] in *; lia. }
  specialize (Hunits (sanitize x)). lia.
Qed.

(** X8.  A sanitized name is safe as one path segment: it has no
    slash, backslash, colon, question mark, asterisk, angle bracket,
    vertical bar, double quote or control character in it (NUL
    included), and it is neither [.] nor [..]. *)
Theorem sanitize_safe_segment (x : jsstring) :
  Forall (fun c => SanitizeFilename.illegal c = false
                   /\ SanitizeFilename.control c = false) (sanitize x)
  /\ hasSeparator (sanitize x) = false
  /\ ~ In 0 (sanitize x)
  /\ sanitize x <> str "."
  /\ sanitize x <> str "..".
Proof.
  pose proof (SanitizeFacts.sanitize_clean x) as Hclean.
  assert (Hdots : forall s, (List.length s < 83)%nat ->
                            SanitizeFilename.endsDotOrSpace s = true ->
                            sanitize x <> s).
  { intros s Hlen Hends E.
    rewrite <- E in Hlen, Hends.
    rewrite (SanitizeBounds.sanitize_short_ends x Hlen) in Hends.
    discriminate Hends. }
  split; [|split; [|split; [|split]]].
  - eapply Forall_impl; [|exact Hclean].
    intros c Hc. unfold SanitizeFilename.clean in Hc.
    apply andb_true_iff in Hc as [H1 H2].
    now rewrite negb_true_iff in H1, H2.
  - exact (hasSeparator_none SanitizeFilename.clean _ clean_no_separator Hclean).
  - intros Hin. rewrite Forall_forall in Hclean.
    specialize (Hclean 0 Hin). discriminate Hclean.
  - apply Hdots; [simpl; lia|reflexivity].
  - apply Hdots; [simpl; lia|reflexivity].
Qed.

(** A long run of dots survives as 255 dots: not a reserved name, but
    the one way a sanitized name can still end in a dot. *)
Example sanitize_many_dots :
  sanitize (List.repeat 46 255 ++ str "a") = List.repeat 46 255.
Proof. vm_compute. reflexivity. Qed.

(* ================================================================= *)
(** ** [path.extname] and [fileFilter] *)

Module ExtnameFacts.
Import Path ExtScan.

Lemma step_plain_first (i : Z) (c : N) :
  plain c -> extStep i c extInit = (seenEnd (i + 1), false).
Proof.
  intros [Hd Hs]. unfold extStep.
  apply N.eqb_neq in Hd, Hs. rewrite Hs, Hd. reflexivity.
Qed.

Lemma step_plain_end (i e : Z) (c : N) :
  plain c -> e <> (-1)%Z -> extStep i c (seenEnd e) = (seenEnd e, false).
Proof.
  intros [Hd Hs] He. unfold extStep.
  apply N.eqb_neq in Hd, Hs. rewrite Hs, Hd. cbn.
  apply Z.eqb_neq in He. now rewrite He.
Qed.

Lemma loop_plain_end (r more : jsstring) (e : Z) :
  Forall plain r -> e <> (-1)%Z ->
  forall i, extLoop (r ++ more) i (seenEnd e)
            = extLoop more (i - Z.of_nat (List.length r)) (seenEnd e).
Proof.
  intros Hr He. induction Hr as [|c r Hc _ IH]; intros i.
  - simpl. now rewrite Z.sub_0_r.
  - cbn [app extLoop]. rewrite (step_plain_end i e c Hc He), IH.
    f_equal. cbn [List.length]. lia.
Qed.

(** Scanning the extension's letters: the end is set at the first one. *)
Lemma loop_plain_first (r more : jsstring) (i : Z) :
  r <> [] -> Forall plain r -> (0 <= i)%Z ->
  extLoop (r ++ more) i extInit
  = extLoop more (i - Z.of_nat (List.length r)) (seenEnd (i + 1)).
Proof.
  intros Hne Hr Hi. destruct r as [|c r]; [easy|].
  inversion Hr as [|? ? Hc Hr']; subst.
  cbn [app extLoop]. rewrite (step_plain_first i c Hc).
  rewrite (loop_plain_end r more (i + 1) Hr'); [|lia].
  f_equal. cbn [List.length]. lia.
Qed.

Lemma step_dot_end (i e : Z) :
  e <> (-1)%Z -> extStep i dot (seenEnd e) = (seenDot i e 0, false).
Proof.
  intros He. unfold extStep. cbn. apply Z.eqb_neq in He. now rewrite He.
Qed.

(** Scanning what is before the last dot, with no slash in it: the dot
    and the end stay, and the third state is -1 or 1 after the first
    code unit. *)
Lemma step_base (i d e pre : Z) (c : N) :
  c <> sep -> d <> (-1)%Z -> e <> (-1)%Z ->
  exists pre', (pre' = (-1)%Z \/ pre' = 1%Z)
               /\ extStep i c (seenDot d e pre) = (seenDot d e pre', false).
Proof.
  intros Hs Hd He. unfold extStep.
  apply N.eqb_neq in Hs. rewrite Hs. cbn.
  apply Z.eqb_neq in He, Hd. rewrite He. cbn. rewrite Hd.
  destruct (N.eqb c dot).
  - destruct (Z.eqb_spec pre 1) as [->|Hp]; cbn.
    + exists 1%Z. auto.
    + exists 1%Z. auto.
  - cbn. exists (-1)%Z. auto.
Qed.

Lemma loop_base (b : jsstring) (d e : Z) :
  Forall (fun c => c <> sep) b -> d <> (-1)%Z -> e <> (-1)%Z ->
  forall i pre,
    (b <> [] \/ pre = (-1)%Z \/ pre = 1%Z) ->
    exists pre', (pre' = (-1)%Z \/ pre' = 1%Z)
                 /\ extLoop b i (seenDot d e pre) = seenDot d e pre'.
Proof.
  intros Hb Hd He. induction Hb as [|c b Hc _ IH]; intros i pre Hpre.
  - destruct Hpre as [H|H]; [easy|]. exists pre. now split.
  - cbn [extLoop].
    destruct (step_base i d e pre c Hc Hd He) as (pre1 & Hpre1 & ->).
    apply IH. now right.
Qed.

(** [extname] of a name that ends in a dot and letters, after a base
    that is not empty and has no slash, is that dot and those letters. *)
Lemma extname_suffix (base letters : jsstring) :
  base <> [] -> Forall (fun c => c <> sep) base ->
  letters <> [] -> Forall plain letters ->
  extname (base ++ dot :: letters) = dot :: letters.
Proof.
  intros Hbase Hnoslash Hletters Hplain.
  unfold extname.
  set (p := base ++ dot :: letters).
  set (n := Z.of_nat (List.length p)).
  set (k := Z.of_nat (List.length base)).
  assert (Hn : n = (k + 1 + Z.of_nat (List.length letters))%Z).
  { subst n k p. rewrite length_app. cbn [List.length]. lia. }
  assert (Hl : (0 < Z.of_nat (List.length letters))%Z).
  { destruct letters; [easy|]. cbn [List.length]. lia. }
  assert (Hrev : rev p = rev letters ++ dot :: rev base).
  { subst p. rewrite rev_app_distr. cbn [rev]. now rewrite <- app_assoc. }
  rewrite Hrev.
  rewrite loop_plain_first;
    [|intros E; apply (f_equal (@rev N)) in E; rewrite rev_involutive in E;
      now subst letters
     |now apply Forall_rev|lia].
  rewrite length_rev. cbn [extLoop].
  rewrite step_dot_end by lia.
  replace (n - 1 - Z.of_nat (List.length letters))%Z with k by lia.
  replace (n - 1 + 1)%Z with n by lia.
  destruct (loop_base (rev base) k n (Forall_rev Hnoslash)) with (i := (k - 1)%Z) (pre := 0%Z)
    as (pre & Hpre & ->); [lia|lia| |].
  { left. intros E. apply (f_equal (@rev N)) in E. rewrite rev_involutive in E.
    now subst base. }
  cbn [startDot endIdx preDotState startPart seenDot].
  replace (k =? -1)%Z with false by (symmetry; apply Z.eqb_neq; lia).
  replace (n =? -1)%Z with false by (symmetry; apply Z.eqb_neq; lia).
  replace (pre =? 0)%Z with false
    by (symmetry; apply Z.eqb_neq; destruct Hpre; lia).
  replace (k =? n - 1)%Z with false by (symmetry; apply Z.eqb_neq; lia).
  rewrite andb_false_r. cbn [orb andb].
  unfold JsString.slice. subst k n. rewrite !Nat2Z.id.
  subst p. rewrite skipn_app, Nat.sub_diag, skipn_all. cbn [skipn app].
  rewrite length_app. cbn [List.length].
  replace (List.length base + S (List.length letters) - List.length base)%nat
    with (List.length (dot :: letters)) by (cbn [List.length]; lia).
  apply firstn_all.
Qed.

(** Without a dot, [startDot] is never set. *)
Lemma step_no_dot (i : Z) (c : N) (st : ExtState) :
  c <> dot -> startDot st = (-1)%Z -> startDot (fst (extStep i c st)) = (-1)%Z.
Proof.
  intros Hd Hst. unfold extStep. apply N.eqb_neq in Hd.
  destruct (N.eqb c sep).
  - now destruct (negb (matchedSlash st)).
  - rewrite Hd. destruct st as [sd sp en ms pd]. cbn in *. subst sd.
    destruct (en =? -1)%Z; reflexivity.
Qed.

Lemma loop_no_dot (s : jsstring) :
  Forall (fun c => c <> dot) s ->
  forall i st, startDot st = (-1)%Z -> startDot (extLoop s i st) = (-1)%Z.
Proof.
  induction 1 as [|c s Hc _ IH]; intros i st Hst; [exact Hst|].
  cbn [extLoop]. pose proof (step_no_dot i c st Hc Hst) as Hstep.
  destruct (extStep i c st) as [st' stop]. cbn [fst] in Hstep.
  destruct stop; [exact Hstep|now apply IH].
Qed.

Lemma extname_no_dot (name : jsstring) :
  Forall (fun c => c <> dot) name -> extname name = [].
Proof.
  intros H. unfold extname.
  rewrite (loop_no_dot (rev name) (Forall_rev H)); reflexivity.
Qed.

(** A name that starts with its only dot has no extension. *)
Lemma extname_leading_dot (letters : jsstring) :
  Forall plain letters -> extname (dot :: letters) = [].
Proof.
  intros Hplain. unfold extname. cbn [rev List.length].
  destruct letters as [|c letters]; [reflexivity|].
  rewrite loop_plain_first;
    [|intros E; apply (f_equal (@rev N)) in E; rewrite rev_involutive in E;
      discriminate E
     |now apply Forall_rev
     |cbn [List.length]; lia].
  cbn [extLoop]. rewrite step_dot_end by (cbn [List.length]; lia).
  cbn [startDot endIdx preDotState startPart seenDot].
  replace (0 =? 0)%Z with true by reflexivity.
  now rewrite orb_true_r.
Qed.

End ExtnameFacts.

Lemma lowerUnit_dot (c : N) : JsString.lowerUnit c = 46 -> c = 46.
Proof.
  unfold JsString.lowerUnit.
  destruct (N.leb_spec 65 c); destruct (N.leb_spec c 90); simpl; lia.
Qed.

Lemma lowerUnit_letter (c : N) :
  97 <= JsString.lowerUnit c <= 122 -> ExtScan.plain c.
Proof.
  unfold JsString.lowerUnit, ExtScan.plain, Path.dot, Path.sep.
  destruct (N.leb_spec 65 c); destruct (N.leb_spec c 90); simpl; lia.
Qed.

Lemma hasSlash_false (s : jsstring) :
  hasSlash s = false -> Forall (fun c => c <> Path.sep) s.
Proof.
  unfold hasSlash. induction s as [|c s IH]; cbn [existsb]; [constructor|].
  intros H. apply orb_false_iff in H as [Hc Hs]. constructor; [|auto].
  apply N.eqb_neq in Hc. congruence.
Qed.

Lemma hasDot_false (s : jsstring) :
  hasDot s = false -> Forall (fun c => c <> Path.dot) s.
Proof.
  unfold hasDot. induction s as [|c s IH]; cbn [existsb]; [constructor|].
  intros H. apply orb_false_iff in H as [Hc Hs]. constructor; [|auto].
  apply N.eqb_neq in Hc. congruence.
Qed.

(** An extension that [ALLOWED_EXT] has after lower-casing is a dot
    followed by three letters. *)
Lemma allowed_shape (ext : jsstring) :
  ALLOWED_EXT_has (JsString.toLowerCase ext) = true ->
  exists letters,
    ext = Path.dot :: letters /\ letters <> [] /\ Forall ExtScan.plain letters.
Proof.
  unfold ALLOWED_EXT_has. intros H. apply existsb_exists in H as (x & Hx & E).
  apply jseqb_eq in E.
  destruct ext as [|c0 [|c1 [|c2 [|c3 [|c4 ext]]]]];
    destruct Hx as [<-|[<-|[]]]; try discriminate E;
    injection E as E0 E1 E2 E3;
    apply lowerUnit_dot in E0; subst c0;
    (exists [c1; c2; c3]; split; [reflexivity|split; [discriminate|]];
     repeat constructor; apply lowerUnit_letter; lia).
Qed.

(** X9.  [fileFilter] lets through every name made of a base that is
    not empty and has no slash, followed by [.lua] or [.txt] in any mix
    of upper and lower case. *)
Theorem fileFilter_accepts (base ext : jsstring) (bytes : N) :
  base <> [] ->
  hasSlash base = false ->
  ALLOWED_EXT_has (JsString.toLowerCase ext) = true ->
  Path.extname (base ++ ext) = ext
  /\ fileFilter {| originalname := base ++ ext; size := bytes |} = true.
Proof.
  intros Hbase Hslash Hallowed.
  destruct (allowed_shape ext Hallowed) as (letters & -> & Hne & Hplain).
  assert (E : Path.extname (base ++ Path.dot :: letters) = Path.dot :: letters).
  { apply ExtnameFacts.extname_suffix; try assumption.
    now apply hasSlash_false. }
  split; [exact E|]. unfold fileFilter. cbn [originalname]. now rewrite E.
Qed.

Lemma fileFilter_accepts_witness :
  Path.extname (str "My.Script" ++ str ".LuA") = str ".LuA"
  /\ fileFilter {| originalname := str "My.Script" ++ str ".LuA"; size := 10 |}
     = true.
Proof.
  apply (fileFilter_accepts (str "My.Script") (str ".LuA") 10).
  - discriminate.
  - reflexivity.
  - reflexivity.
Defined.

(** X10.  [fileFilter] refuses every name without a dot, and every name
    whose only dot comes first, such as [.lua] itself: [path.extname]
    finds no extension in them. *)
Theorem fileFilter_rejects (name : jsstring) (bytes : N) :
  hasDot name = false
  \/ (exists letters,
        name = Path.dot :: letters
        /\ hasDot letters = false /\ hasSlash letters = false) ->
  Path.extname name = []
  /\ fileFilter {| originalname := name; size := bytes |} = false.
Proof.
  intros H.
  assert (E : Path.extname name = []).
  { destruct H as [H|(letters & -> & Hd & Hs)].
    - apply ExtnameFacts.extname_no_dot. now apply hasDot_false.
    - apply ExtnameFacts.extname_leading_dot.
      apply hasDot_false in Hd. apply hasSlash_false in Hs.
      rewrite Forall_forall in *. intros c Hc. split; auto. }
  split; [exact E|]. unfold fileFilter. cbn [originalname]. now rewrite E.
Qed.

Lemma fileFilter_rejects_witness :
  Path.extname (str ".lua") = []
  /\ fileFilter {| originalname := str ".lua"; size := 10 |} = false.
Proof.
  apply (fileFilter_rejects (str ".lua") 10).
  right. exists (str "lua"). repeat split.
Defined.

(* ================================================================= *)
(** ** Paths *)

Module PathFacts.
Import Path.

Lemma split_nonempty (p : jsstring) : split p <> [].
Proof.
  destruct p as [|c p]; [discriminate|]. unfold split. cbn [fold_right].
  destruct (N.eqb c sep); [discriminate|].
  now destruct (fold_right _ _ p).
Qed.

Lemma split_sep (p : jsstring) : split (sep :: p) = [] :: split p.
Proof. reflexivity. Qed.

Lemma split_cons (c : N) (p : jsstring) :
  c <> sep ->
  split (c :: p) = match split p with
                   | seg :: more => (c :: seg) :: more
                   | [] => [[c]]
                   end.
Proof.
  intros Hc. unfold split at 1. cbn [fold_right].
  apply N.eqb_neq in Hc. now rewrite Hc.
Qed.

(** A part without slash in front of a slash is the first segment. *)
Lemma split_app_sep (a b : jsstring) :
  noSlash a -> split (a ++ sep :: b) = a :: split b.
Proof.
  induction 1 as [|c a Hc _ IH]; [reflexivity|].
  cbn [app]. rewrite (split_cons c _ Hc), IH. reflexivity.
Qed.

Lemma split_noSlash (a : jsstring) : noSlash a -> split a = [a].
Proof.
  induction 1 as [|c a Hc _ IH]; [reflexivity|].
  rewrite (split_cons c _ Hc), IH. reflexivity.
Qed.

Lemma proper_spec (seg : jsstring) :
  properSegment seg = true <->
  seg <> [] /\ noSlash seg /\ seg <> [dot] /\ seg <> [dot; dot].
Proof.
  unfold properSegment. rewrite !andb_true_iff, !negb_true_iff, !jseqb_neq.
  split.
  - intros [[[H1 H2] H3] H4]. repeat split; auto.
    + now destruct seg.
    + now apply hasSlash_false.
  - intros (H1 & H2 & H3 & H4). repeat split; auto.
    + now destruct seg.
    + unfold hasSlash. destruct (existsb _ seg) eqn:E; [|reflexivity].
      apply existsb_exists in E as (c & Hin & Hc). apply N.eqb_eq in Hc.
      unfold noSlash in H2. rewrite Forall_forall in H2.
      now destruct (H2 c Hin).
Qed.

Lemma properAll_forallb (segs : list jsstring) :
  forallb properSegment segs = true -> properAll segs.
Proof. intros H. apply Forall_forall. now apply forallb_forall. Qed.

Lemma split_join_app (segs : list jsstring) (t : jsstring) :
  properAll segs ->
  split (joinSegments segs ++ sep :: t)
  = match segs with [] => [[]] | _ => segs end ++ split t.
Proof.
  induction 1 as [|seg segs Hseg Hsegs IH]; [reflexivity|].
  apply proper_spec in Hseg as (_ & Hns & _).
  destruct segs as [|seg2 segs].
  - cbn [joinSegments app]. now rewrite split_app_sep.
  - change (joinSegments (seg :: seg2 :: segs))
      with (seg ++ sep :: joinSegments (seg2 :: segs)).
    rewrite <- app_assoc. cbn [app].
    rewrite split_app_sep by assumption. now rewrite IH.
Qed.

Lemma normalize_skip (b : bool) (acc segs : list jsstring) :
  normalizeSegments b acc ([] :: segs) = normalizeSegments b acc segs.
Proof. reflexivity. Qed.

Lemma normalize_proper (b : bool) (seg : jsstring) (acc segs : list jsstring) :
  properSegment seg = true ->
  normalizeSegments b acc (seg :: segs) = normalizeSegments b (seg :: acc) segs.
Proof.
  intros H. apply proper_spec in H as (H1 & _ & H3 & H4).
  cbn [normalizeSegments].
  apply jseqb_neq in H1, H3, H4. now rewrite H1, H3, H4.
Qed.

Lemma normalize_proper_app (b : bool) (segs : list jsstring) :
  properAll segs ->
  forall acc rest,
    normalizeSegments b acc (segs ++ rest)
    = normalizeSegments b (rev segs ++ acc) rest.
Proof.
  induction 1 as [|seg segs Hseg _ IH]; intros acc rest; [reflexivity|].
  cbn [app rev]. rewrite (normalize_proper b seg acc _ Hseg), IH.
  now rewrite <- app_assoc.
Qed.

(** Normalizing an absolute, normalized path followed by [/t]: the
    segments of the path are kept and those of [t] are handled after
    them. *)
Lemma normalize_after (segs : list jsstring) (t : jsstring) :
  properAll segs ->
  normalizeSegments false [] (split (absolutePath segs ++ sep :: t))
  = normalizeSegments false (rev segs) (split t).
Proof.
  intros Hsegs. unfold absolutePath. cbn [app].
  rewrite split_sep, normalize_skip, (split_join_app segs t Hsegs).
  destruct segs as [|seg segs]; [reflexivity|].
  rewrite (normalize_proper_app false (seg :: segs) Hsegs). now rewrite app_nil_r.
Qed.

Lemma joinSegments_snoc (segs : list jsstring) (x : jsstring) :
  segs <> [] -> joinSegments (segs ++ [x]) = joinSegments segs ++ sep :: x.
Proof.
  induction segs as [|seg segs IH]; [easy|]. intros _.
  destruct segs as [|seg2 segs]; [reflexivity|].
  change (joinSegments ((seg :: seg2 :: segs) ++ [x]))
    with (seg ++ sep :: joinSegments ((seg2 :: segs) ++ [x])).
  rewrite IH by discriminate.
  change (joinSegments (seg :: seg2 :: segs))
    with (seg ++ sep :: joinSegments (seg2 :: segs)).
  now rewrite <- app_assoc.
Qed.

Lemma absolutePath_snoc (segs : list jsstring) (x : jsstring) :
  segs <> [] -> absolutePath (segs ++ [x]) = absolutePath segs ++ sep :: x.
Proof. intros H. unfold absolutePath. now rewrite joinSegments_snoc. Qed.

Lemma endsWithSep_app (a x : jsstring) :
  x <> [] -> noSlash x -> endsWithSep (a ++ x) = false.
Proof.
  intros Hne Hx. unfold endsWithSep. rewrite rev_app_distr.
  destruct (rev x) as [|c r] eqn:E.
  - apply (f_equal (@rev N)) in E. rewrite rev_involutive in E. now subst x.
  - cbn [app]. apply N.eqb_neq.
    assert (Hin : In c x) by (apply in_rev; rewrite E; now left).
    unfold noSlash in Hx. rewrite Forall_forall in Hx. now apply Hx.
Qed.

(** [path.join] of an absolute, normalized path and a proper segment
    appends the segment. *)
Lemma join_child (segs : list jsstring) (x : jsstring) :
  properAll segs -> properSegment x = true ->
  join [absolutePath segs; x] = absolutePath (segs ++ [x]).
Proof.
  intros Hsegs Hx. pose proof Hx as Hx'.
  apply proper_spec in Hx' as (Hne & Hns & _).
  unfold join. cbn [filter].
  replace (JsString.truthy (absolutePath segs)) with true by reflexivity.
  replace (JsString.truthy x) with true by (destruct x; easy).
  cbn [joinSegments]. unfold normalize.
  assert (Habs : isAbsolute (absolutePath segs ++ sep :: x) = true)
    by reflexivity.
  assert (Hend : endsWithSep (absolutePath segs ++ sep :: x) = false).
  { replace (absolutePath segs ++ sep :: x)
      with ((absolutePath segs ++ [sep]) ++ x) by (now rewrite <- app_assoc).
    now apply endsWithSep_app. }
  assert (Hbody : normalizeString (absolutePath segs ++ sep :: x) false
                  = joinSegments (segs ++ [x])).
  { unfold normalizeString. rewrite (normalize_after segs x Hsegs).
    rewrite (split_noSlash x Hns), (normalize_proper false x _ _ Hx).
    cbn [normalizeSegments rev]. now rewrite rev_involutive. }
  assert (Hne' : joinSegments (segs ++ [x]) <> []).
  { destruct segs as [|seg segs]; [exact Hne|].
    rewrite joinSegments_snoc by discriminate.
    intros E. now apply app_eq_nil in E as [_ E]. }
  destruct (absolutePath segs ++ sep :: x) as [|c0 p0] eqn:Ep;
    [discriminate Ep|].
  rewrite Habs, Hend. cbn [negb]. rewrite Hbody.
  change (absolutePath (segs ++ [x])) with (sep :: joinSegments (segs ++ [x])).
  destruct (joinSegments (segs ++ [x])) as [|c1 body]; [easy|].
  cbn [app]. now rewrite app_nil_r.
Qed.

(** [path.resolve] of an absolute, normalized path and a name without
    slash: the path itself for the empty name and for [.], its parent
    for [..], and the name appended otherwise. *)
Lemma resolve_noSlash (cwd : jsstring) (segs : list jsstring) (x : jsstring) :
  properAll segs -> noSlash x ->
  resolve cwd [absolutePath segs; x]
  = if JsString.eqb x [] || JsString.eqb x [dot] then absolutePath segs
    else if JsString.eqb x [dot; dot] then absolutePath (removelast segs)
    else absolutePath (segs ++ [x]).
Proof.
  intros Hsegs Hx. unfold resolve. cbn [rev app resolveFrom].
  assert (Habs : isAbsolute (absolutePath segs) = true) by reflexivity.
  destruct x as [|c x].
  - cbn [JsString.eqb orb].
    change (absolutePath segs) with (sep :: joinSegments segs) at 1.
    cbn iota. change (sep :: joinSegments segs) with (absolutePath segs).
    rewrite Habs. cbn iota. cbn [negb].
    unfold normalizeString. change [sep] with (sep :: []).
    rewrite (normalize_after segs [] Hsegs). cbn [split fold_right].
    rewrite normalize_skip. cbn [normalizeSegments]. now rewrite rev_involutive.
  - set (name := c :: x) in *.
    assert (Hrel : isAbsolute name = false).
    { inversion Hx as [|? ? Hc _]; subst. cbn. now apply N.eqb_neq. }
    cbn iota. unfold name at 1. cbn iota. fold name. rewrite Hrel.
    change (absolutePath segs) with (sep :: joinSegments segs) at 1.
    cbn iota. change (sep :: joinSegments segs) with (absolutePath segs).
    rewrite Habs. cbn iota. cbn [negb].
    unfold normalizeString.
    replace (absolutePath segs ++ sep :: name ++ [sep])
      with (absolutePath segs ++ sep :: (name ++ sep :: []))
      by reflexivity.
    rewrite (normalize_after segs _ Hsegs), (split_app_sep name [] Hx).
    cbn [split fold_right].
    replace (JsString.eqb name []) with false by reflexivity. cbn [orb].
    cbn [normalizeSegments].
    replace (JsString.eqb name []) with false by reflexivity. cbn [orb].
    destruct (JsString.eqb name [dot]) eqn:E1.
    { cbn [JsString.eqb orb]. now rewrite rev_involutive. }
    destruct (JsString.eqb name [dot; dot]) eqn:E2.
    + destruct (rev segs) as [|last acc] eqn:Er.
      * cbn [JsString.eqb orb rev].
        apply (f_equal (@rev (list N))) in Er. rewrite rev_involutive in Er.
        now subst segs.
      * assert (Hlast : properSegment last = true).
        { unfold properAll in Hsegs. rewrite Forall_forall in Hsegs.
          apply Hsegs, in_rev. rewrite Er. now left. }
        apply proper_spec in Hlast as (_ & _ & _ & Hdd).
        apply jseqb_neq in Hdd. rewrite Hdd. cbn [JsString.eqb orb].
        apply (f_equal (@rev (list N))) in Er. rewrite rev_involutive in Er.
        subst segs. cbn [rev]. now rewrite removelast_last.
    + cbn [JsString.eqb orb rev]. now rewrite rev_involutive.
Qed.

Lemma startsWith_longer (s p : jsstring) :
  (List.length s < List.length p)%nat -> JsString.startsWith s p = false.
Proof.
  revert s. induction p as [|c p IH]; intros s H; [simpl in H; lia|].
  destruct s as [|d s]; [reflexivity|]. cbn [JsString.startsWith].
  rewrite IH by (simpl in H; lia). apply andb_false_r.
Qed.

Lemma joinSegments_length_snoc (segs : list jsstring) (x : jsstring) :
  x <> [] ->
  (List.length (joinSegments segs) < List.length (joinSegments (segs ++ [x])))%nat.
Proof.
  intros Hx. destruct segs as [|seg segs].
  - cbn. destruct x; [easy|]. cbn. lia.
  - rewrite joinSegments_snoc by discriminate. rewrite length_app. cbn. lia.
Qed.

(** The parent of a directory does not start with the directory. *)
Lemma parent_not_prefixed (segs : list jsstring) :
  properAll segs -> segs <> [] ->
  JsString.startsWith (absolutePath (removelast segs)) (absolutePath segs) = false.
Proof.
  intros Hsegs Hne. apply startsWith_longer.
  destruct (exists_last Hne) as (front & last & ->).
  rewrite removelast_last. unfold absolutePath. cbn [List.length].
  apply -> Nat.succ_lt_mono. apply joinSegments_length_snoc.
  unfold properAll in Hsegs. apply Forall_app in Hsegs as [_ Hlast].
  inversion Hlast as [|? ? H _]; subst. now apply proper_spec in H.
Qed.

End PathFacts.

(* ================================================================= *)
(** ** The user directories *)

Module DirFacts.
Import PathFacts.

Lemma clean_noSlash (s : jsstring) :
  Forall (fun c => SanitizeFilename.clean c = true) s -> noSlash s.
Proof.
  intros H. eapply Forall_impl; [|exact H]. intros c Hc E. subst c.
  discriminate Hc.
Qed.

(** A sanitized name that is not empty is a proper segment. *)
Lemma sanitize_proper (x : jsstring) :
  sanitize x <> [] -> properSegment (sanitize x) = true.
Proof.
  intros Hne. apply proper_spec. split; [exact Hne|]. split.
  - apply clean_noSlash, SanitizeFacts.sanitize_clean.
  - split; intros E;
      assert (Hshort : (List.length (sanitize x) < 83)%nat)
        by (rewrite E; simpl; lia);
      pose proof (SanitizeBounds.sanitize_short_ends x Hshort) as Hends;
      rewrite E in Hends; discriminate Hends.
Qed.

Lemma uploads_proper : properSegment (str "uploads") = true.
Proof. reflexivity. Qed.

Lemma properAll_snoc (segs : list jsstring) (x : jsstring) :
  properAll segs -> properSegment x = true -> properAll (segs ++ [x]).
Proof. intros H Hx. apply Forall_app. split; [exact H|now constructor]. Qed.

Lemma UPLOADS_DIR_path (e : Env) (segs : list jsstring) :
  installedAt e segs -> UPLOADS_DIR e = absolutePath (segs ++ [str "uploads"]).
Proof.
  intros [Hdir Hsegs]. unfold UPLOADS_DIR. rewrite Hdir.
  apply join_child; [exact Hsegs|reflexivity].
Qed.

Lemma userSegments_proper (segs : list jsstring) (username : jsstring) :
  properAll segs -> properAll (userSegments segs username) .
Proof.
  intros Hsegs. unfold userSegments.
  pose proof (properAll_snoc segs _ Hsegs uploads_proper) as Hup.
  destruct (sanitize username) as [|c name] eqn:E.
  - now rewrite app_nil_r.
  - apply properAll_snoc; [exact Hup|].
    rewrite <- E. apply sanitize_proper. now rewrite E.
Qed.

Lemma userSegments_nonempty (segs : list jsstring) (username : jsstring) :
  userSegments segs username <> [].
Proof.
  unfold userSegments. intros E. apply app_eq_nil in E as [E _].
  now apply app_eq_nil in E as [_ E].
Qed.

Lemma rawUserDir_path (e : Env) (segs : list jsstring) (username : jsstring) :
  installedAt e segs ->
  rawUserDir e username = absolutePath (userSegments segs username).
Proof.
  intros Hinst. pose proof Hinst as [_ Hsegs].
  unfold rawUserDir, userSegments. rewrite (UPLOADS_DIR_path e segs Hinst).
  rewrite resolve_noSlash;
    [|now apply properAll_snoc
     |apply clean_noSlash, SanitizeFacts.sanitize_clean].
  destruct (sanitize username) as [|c name] eqn:E.
  - cbn [JsString.eqb orb]. now rewrite app_nil_r.
  - assert (Hp : properSegment (c :: name) = true).
    { rewrite <- E. apply sanitize_proper. now rewrite E. }
    apply proper_spec in Hp as (_ & _ & H1 & H2).
    apply jseqb_neq in H1, H2. rewrite H1, H2. reflexivity.
Qed.

Lemma join_user (e : Env) (segs : list jsstring) (name : jsstring) :
  installedAt e segs -> sanitize name = name -> name <> [] ->
  Path.join [UPLOADS_DIR e; sanitize name]
  = absolutePath (userSegments segs name).
Proof.
  intros Hinst Hs Hne. pose proof Hinst as [_ Hsegs].
  rewrite (UPLOADS_DIR_path e segs Hinst). unfold userSegments.
  rewrite Hs. destruct name as [|c name]; [easy|].
  apply join_child; [now apply properAll_snoc|].
  rewrite <- Hs. apply sanitize_proper. now rewrite Hs.
Qed.

Lemma userSegments_registered (e : Env) (segs : list jsstring) (name : jsstring) :
  installedAt e segs -> sanitize name = name -> name <> [] ->
  absolutePath (userSegments segs name) = UPLOADS_DIR e ++ Path.sep :: name.
Proof.
  intros Hinst Hs Hne. rewrite (UPLOADS_DIR_path e segs Hinst).
  unfold userSegments. rewrite Hs. destruct name as [|c name]; [easy|].
  apply absolutePath_snoc. intros E. now apply app_eq_nil in E as [_ E].
Qed.

(** The stored name is a proper segment. *)
Lemma filename_proper (now random : N) (file : FilePart) :
  properSegment (filename now random file) = true.
Proof.
  assert (Hname : Forall (fun c => SanitizeFilename.clean c = true)
                    (match sanitize (originalname file) with
                     | [] => str "file"
                     | c :: l => c :: l
                     end)).
  { destruct (sanitize (originalname file)) eqn:E.
    - repeat constructor.
    - rewrite <- E. apply SanitizeFacts.sanitize_clean. }
  assert (Hdigits : forall n, noSlash (JsString.ofNumber n)).
  { intros n. eapply Forall_impl; [|apply ofNumber_digits].
    intros c Hc E. subst c. discriminate Hc. }
  apply proper_spec. unfold filename.
  set (name := match sanitize (originalname file) with
               | [] => str "file" | c :: l => c :: l end) in *.
  assert (Hdash : In 45 ((JsString.ofNumber now ++ str "-"
                            ++ JsString.ofNumber random) ++ str "-" ++ name)).
  { apply in_or_app. right. now left. }
  repeat split.
  - intros E. rewrite E in Hdash. destruct Hdash.
  - unfold noSlash. rewrite !Forall_app. repeat split.
    + apply Hdigits.
    + repeat constructor. discriminate.
    + apply Hdigits.
    + repeat constructor. discriminate.
    + now apply clean_noSlash.
  - intros E. rewrite E in Hdash. destruct Hdash as [H|[]]. discriminate H.
  - intros E. rewrite E in Hdash. destruct Hdash as [H|[H|[]]]; discriminate H.
Qed.

Lemma insideDir_child (segs : list jsstring) (x : jsstring) :
  segs <> [] ->
  insideDir (absolutePath segs) (absolutePath (segs ++ [x])) = true.
Proof.
  intros Hne. rewrite absolutePath_snoc by assumption. unfold insideDir.
  replace (absolutePath segs ++ Path.sep :: x)
    with ((absolutePath segs ++ [Path.sep]) ++ x) by (now rewrite <- app_assoc).
  apply startsWith_app.
Qed.

Lemma run_snoc (w : World) (effs : list Effect) (eff : Effect) :
  run w (effs ++ [eff]) = applyEffect (run w effs) eff.
Proof. unfold run. now rewrite fold_left_app. Qed.

End DirFacts.

(** X11.  Registration provisions the directory that everything else
    uses.  After a successful registration of [name], the directory
    [uploads/name] under the installation directory exists, it is where
    the uploads of the new session are sent, and it is the directory
    the raw server reads for [name]. *)
Theorem register_provisions_directory
  (e : Env) (segs : list jsstring) (w : World) (body : Credentials)
  (name : jsstring) :
  installedAt e segs ->
  fst (register e w body) = Json 200 (OkUsername name) ->
  let w' := run w (snd (register e w body)) in
  let dir := UPLOADS_DIR e ++ Path.sep :: name in
  existsSync w' dir = true
  /\ destination e w' = Some dir
  /\ rawUserDir e name = dir.
Proof.
  intros Hinst Hok w' dir.
  destruct (register_world e w body name Hok)
    as (Hname & Hu & _ & Hs & _ & _ & Hsession & Hexists).
  fold w' in Hsession, Hexists.
  assert (Hne : name <> []).
  { rewrite Hname. destruct (bodyUsername body) as [[|c n]|]; easy. }
  pose proof (DirFacts.userSegments_registered e segs name Hinst Hs Hne) as Hdir.
  fold dir in Hdir.
  pose proof (DirFacts.join_user e segs name Hinst Hs Hne) as Hjoin.
  rewrite Hs, Hdir in Hjoin.
  repeat split.
  - now rewrite <- Hjoin.
  - unfold destination. rewrite Hsession. cbn [sessionUsername].
    replace (JsString.truthy name) with true by (destruct name; easy).
    now rewrite Hs, Hjoin.
  - now rewrite (DirFacts.rawUserDir_path e segs name Hinst).
Qed.

Lemma register_provisions_directory_witness :
  let w' := run Demo.anonymous
              (snd (register Demo.env Demo.anonymous
                      {| bodyUsername := Some (str "bob");
                         bodyPassword := Some (str "hunter2") |})) in
  let dir := UPLOADS_DIR Demo.env ++ Path.sep :: str "bob" in
  existsSync w' dir = true
  /\ destination Demo.env w' = Some dir
  /\ rawUserDir Demo.env (str "bob") = dir.
Proof.
  apply (register_provisions_directory Demo.env [str "app"] Demo.anonymous
           {| bodyUsername := Some (str "bob");
              bodyPassword := Some (str "hunter2") |} (str "bob")).
  - split; [reflexivity|]. repeat constructor.
  - reflexivity.
Defined.

(** X12.  An upload comes back.  When a user whose name is its own
    sanitized form (as every registered name is) uploads a file and is
    redirected, the file was written directly inside [uploads/name],
    under the generated name, and a request to the raw server for that
    name and that stored name is answered with that very file. *)
Theorem upload_then_raw
  (e : Env) (segs : list jsstring) (w : World) (s : Session)
  (now random : N) (file : FilePart) :
  installedAt e segs ->
  session w = Some s ->
  sessionUsername s <> [] ->
  sanitize (sessionUsername s) = sessionUsername s ->
  fst (upload e w now random (Some file)) = Redirect (str "/") ->
  let name := sessionUsername s in
  let dir := UPLOADS_DIR e ++ Path.sep :: name in
  let stored := dir ++ Path.sep :: filename now random file in
  let effects := snd (upload e w now random (Some file)) in
  In (WriteUpload stored (size file)) effects
  /\ (forall p bytes, In (WriteUpload p bytes) effects -> p = stored)
  /\ insideDir dir stored = true
  /\ raw e (run w effects) name (filename now random file)
     = (SendFile stored, []).
Proof.
  intros Hinst Hsession Hne Hs Hok name dir stored effects.
  assert (Hnamed : forall s0, session w = Some s0 ->
                              JsString.truthy (sessionUsername s0) = true).
  { intros s0 E. rewrite Hsession in E. injection E as <-.
    destruct (sessionUsername s); easy. }
  pose proof Hinst as [_ Hsegs].
  pose proof (DirFacts.userSegments_proper segs name Hsegs) as Hproper.
  pose proof (DirFacts.userSegments_nonempty segs name) as Hnonempty.
  pose proof (DirFacts.userSegments_registered e segs name Hinst Hs Hne) as Hdir.
  pose proof (DirFacts.filename_proper now random file) as Hfile.
  pose proof (DirFacts.join_user e segs name Hinst Hs Hne) as Hjoin.
  pose proof (DirFacts.rawUserDir_path e segs name Hinst) as Hrawdir.
  pose proof (PathFacts.join_child _ _ Hproper Hfile) as Hchild.
  pose proof (PathFacts.absolutePath_snoc _ (filename now random file) Hnonempty)
    as Hsnoc.
  pose proof (DirFacts.insideDir_child _ (filename now random file) Hnonempty)
    as Hinside.
  assert (Hresolve : Path.resolve (cwd e)
                       [absolutePath (userSegments segs name);
                        filename now random file]
                     = absolutePath (userSegments segs name
                                       ++ [filename now random file])).
  { rewrite PathFacts.resolve_noSlash;
      [|exact Hproper|now apply PathFacts.proper_spec in Hfile].
    apply PathFacts.proper_spec in Hfile as (H0 & _ & H1 & H2).
    apply jseqb_neq in H0, H1, H2. now rewrite H0, H1, H2. }
  change (UPLOADS_DIR e ++ Path.sep :: name) with dir in Hdir.
  rewrite Hdir in Hjoin, Hrawdir, Hchild, Hsnoc, Hinside, Hresolve.
  rewrite Hsnoc in Hchild, Hinside, Hresolve.
  change (dir ++ Path.sep :: filename now random file)
    with stored in Hchild, Hinside, Hresolve.
  clear Hproper Hnonempty Hsnoc.
  assert (Hdest : destination e w = Some dir).
  { unfold destination. rewrite Hsession, (Hnamed s Hsession). fold name.
    now rewrite Hjoin. }
  assert (Heffects : effects
                     = ensureDir w dir ++ [WriteUpload stored (size file)]).
  { unfold effects.
    destruct (upload_cases e w now random file Hnamed)
      as [(_ & E)|[(_ & _ & E)|[(_ & _ & _ & d & _ & E)
                               |(_ & _ & _ & d & Hd & E)]]];
      cbv zeta in E; rewrite E in Hok |- *; try discriminate Hok.
    rewrite Hdest in Hd. injection Hd as <-. cbn [snd]. now rewrite Hchild. }
  clearbody effects. subst effects.
  split; [|split; [|split]].
  - apply in_or_app. right. now left.
  - intros p bytes Hin.
    apply in_app_or in Hin as [Hin|[Hin|[]]].
    + unfold ensureDir in Hin. destruct (existsSync w dir); [destruct Hin|].
      destruct Hin as [Hin|[]]. discriminate Hin.
    + now injection Hin as <- _.
  - exact Hinside.
  - unfold raw, rawFilePath. rewrite Hrawdir, Hresolve.
    replace (JsString.startsWith stored dir) with true
      by (symmetry; apply startsWith_app).
    cbn [negb]. rewrite DirFacts.run_snoc.
    unfold existsSync. cbn [applyEffect files]. now rewrite jseqb_refl.
Qed.

Lemma upload_then_raw_witness :
  let file := {| originalname := str "script.lua"; size := 10 |} in
  let name := str "alice" in
  let dir := UPLOADS_DIR Demo.env ++ Path.sep :: name in
  let stored := dir ++ Path.sep :: filename 1700000000000 42 file in
  let effects := snd (upload Demo.env Demo.asAlice 1700000000000 42 (Some file)) in
  In (WriteUpload stored (size file)) effects
  /\ (forall p bytes, In (WriteUpload p bytes) effects -> p = stored)
  /\ insideDir dir stored = true
  /\ raw Demo.env (run Demo.asAlice effects) name (filename 1700000000000 42 file)
     = (SendFile stored, []).
Proof.
  apply (upload_then_raw Demo.env [str "app"] Demo.asAlice
           {| userId := 1; sessionUsername := str "alice" |}
           1700000000000 42
           {| originalname := str "script.lua"; size := 10 |}).
  - split; [reflexivity|]. repeat constructor.
  - reflexivity.
  - discriminate.
  - reflexivity.
  - reflexivity.
Defined.

(** X13.  What the prefix check does achieve.  For a file name without
    a slash in it, whatever the username, the raw server never sends
    anything but the user directory itself (for the name [.]) or the
    entry of that name directly inside it; for [..] it answers 400. *)
Theorem raw_safe_without_slash
  (e : Env) (segs : list jsstring) (w : World) (username name p : jsstring) :
  installedAt e segs ->
  hasSlash name = false ->
  fst (raw e w username name) = SendFile p ->
  name <> str ".."
  /\ (p = rawUserDir e username
      \/ (p = rawUserDir e username ++ Path.sep :: name
          /\ insideDir (rawUserDir e username) p = true)).
Proof.
  intros Hinst Hslash Hsent. pose proof Hinst as [_ Hsegs].
  pose proof (DirFacts.userSegments_proper segs username Hsegs) as Hproper.
  pose proof (DirFacts.userSegments_nonempty segs username) as Hnonempty.
  assert (Hpath : rawFilePath e username name
                  = if JsString.eqb name [] || JsString.eqb name [Path.dot]
                    then rawUserDir e username
                    else if JsString.eqb name [Path.dot; Path.dot]
                         then absolutePath
                                (removelast (userSegments segs username))
                         else absolutePath (userSegments segs username ++ [name])).
  { unfold rawFilePath. rewrite (DirFacts.rawUserDir_path e segs username Hinst).
    apply PathFacts.resolve_noSlash; [exact Hproper|now apply hasSlash_false]. }
  unfold raw in Hsent. fold (rawFilePath e username name) in Hsent.
  destruct (JsString.startsWith (rawFilePath e username name)
              (rawUserDir e username)) eqn:Hprefix;
    [|discriminate Hsent].
  destruct (existsSync w (rawFilePath e username name)); [|discriminate Hsent].
  cbn in Hsent. injection Hsent as <-.
  rewrite Hpath in *.
  destruct (JsString.eqb name [] || JsString.eqb name [Path.dot]) eqn:E1.
  { split; [|now left]. intros ->. discriminate E1. }
  destruct (jseqb_spec name [Path.dot; Path.dot]) as [E2|E2].
  - exfalso. rewrite (DirFacts.rawUserDir_path e segs username Hinst) in Hprefix.
    rewrite (PathFacts.parent_not_prefixed _ Hproper Hnonempty) in Hprefix.
    discriminate Hprefix.
  - split; [exact E2|]. right.
    rewrite (DirFacts.rawUserDir_path e segs username Hinst).
    split; [now apply PathFacts.absolutePath_snoc|].
    now apply DirFacts.insideDir_child.
Qed.

Lemma raw_safe_without_slash_witness :
  str "1700000000000-42-secret.txt" <> str ".."
  /\ (str "/app/uploads/alicebob/1700000000000-42-secret.txt"
      = rawUserDir Demo.env (str "alicebob")
      \/ (str "/app/uploads/alicebob/1700000000000-42-secret.txt"
          = rawUserDir Demo.env (str "alicebob")
              ++ Path.sep :: str "1700000000000-42-secret.txt"
          /\ insideDir (rawUserDir Demo.env (str "alicebob"))
               (str "/app/uploads/alicebob/1700000000000-42-secret.txt") = true)).
Proof.
  apply (raw_safe_without_slash Demo.env [str "app"] Demo.anonymous
           (str "alicebob") (str "1700000000000-42-secret.txt")
           (str "/app/uploads/alicebob/1700000000000-42-secret.txt")).
  - split; [reflexivity|]. repeat constructor.
  - reflexivity.
  - reflexivity.
Defined.

(** [..] alone is refused, and so is the way up from the uploads root
    when the username sanitizes to nothing. *)
Example raw_dotdot :
  raw Demo.env Demo.anonymous (str "alice") (str "..")
  = (Send 400 msgBadRequest, [])
  /\ raw Demo.env Demo.anonymous (str "con") (str "..")
     = (Send 400 msgBadRequest, []).
Proof. split; reflexivity. Qed.

(* ================================================================= *)
(** ** [encodeURIComponent] and the listing *)

Module UriFacts.
Import Uri.

Lemma hexDigit_safe (n : N) : urlDelimiter (hexDigit n) = false.
Proof.
  unfold hexDigit, urlDelimiter. cbn [existsb].
  destruct (N.ltb_spec n 10);
    repeat (apply orb_false_iff; split); try reflexivity;
    apply N.eqb_neq; lia.
Qed.

Lemma escape_safe (cp : N) : Forall (fun c => urlDelimiter c = false) (escape cp).
Proof.
  unfold escape. induction (utf8 cp) as [|octet l IH]; [constructor|].
  cbn [flat_map percent app]. repeat constructor; try apply hexDigit_safe.
  exact IH.
Qed.

Lemma escape_nonempty (cp : N) : escape cp <> [].
Proof.
  unfold escape, utf8.
  destruct (cp <? 128); [discriminate|].
  destruct (cp <? 2048); [discriminate|].
  destruct (cp <? 65536); discriminate.
Qed.

Lemma unreserved_safe (c : N) : unreserved c = true -> urlDelimiter c = false.
Proof.
  intros H. unfold urlDelimiter. cbn [existsb].
  repeat (apply orb_false_iff; split); try reflexivity;
    apply N.eqb_neq; intros ->; discriminate H.
Qed.

Lemma unreserved_ascii (c : N) : unreserved c = true -> c < 128.
Proof.
  unfold unreserved, isAlpha, SanitizeFilename.isDigit. cbn [existsb].
  intros H.
  repeat (rewrite orb_true_iff in H || rewrite andb_true_iff in H).
  rewrite ?N.leb_le, ?N.eqb_eq in H.
  intuition (try discriminate; lia).
Qed.

Lemma unreserved_not_surrogate (c : N) :
  unreserved c = true ->
  SanitizeFilename.isLowSurrogate c = false
  /\ SanitizeFilename.isHighSurrogate c = false.
Proof.
  intros H. apply unreserved_ascii in H.
  unfold SanitizeFilename.isLowSurrogate, SanitizeFilename.isHighSurrogate.
  split; apply andb_false_iff; left; apply N.leb_gt; lia.
Qed.

Lemma encode_one (c : N) :
  encodeURIComponent [c] =
  if unreserved c then Some [c]
  else if SanitizeFilename.isLowSurrogate c then None
  else if SanitizeFilename.isHighSurrogate c then None
  else Some (escape c ++ []).
Proof. reflexivity. Qed.

Lemma encode_two (c d : N) (s : jsstring) :
  encodeURIComponent (c :: d :: s) =
  if unreserved c then option_map (cons c) (encodeURIComponent (d :: s))
  else if SanitizeFilename.isLowSurrogate c then None
  else if SanitizeFilename.isHighSurrogate c then
    if SanitizeFilename.isLowSurrogate d
    then option_map (app (escape (pairToCodePoint c d))) (encodeURIComponent s)
    else None
  else option_map (app (escape c)) (encodeURIComponent (d :: s)).
Proof. reflexivity. Qed.

Lemma wellFormed_two (c d : N) (s : jsstring) :
  wellFormedUtf16 (c :: d :: s) =
  if SanitizeFilename.isLowSurrogate c then false
  else if SanitizeFilename.isHighSurrogate c
       then SanitizeFilename.isLowSurrogate d && wellFormedUtf16 s
       else wellFormedUtf16 (d :: s).
Proof. reflexivity. Qed.

Lemma option_map_none {A B} (f : A -> B) (o : option A) :
  option_map f o = None <-> o = None.
Proof. destruct o; simpl; split; congruence. Qed.

(** [encodeURIComponent] throws exactly on the strings with an unpaired
    surrogate. *)
Lemma encode_none_iff (s : jsstring) :
  encodeURIComponent s = None <-> wellFormedUtf16 s = false.
Proof.
  induction s as [| c | c d s IHs IHd] using SanitizeFacts.pair_ind.
  - split; discriminate.
  - rewrite encode_one. cbn [wellFormedUtf16].
    destruct (unreserved c) eqn:Hu.
    + destruct (unreserved_not_surrogate c Hu) as [-> ->].
      split; discriminate.
    + destruct (SanitizeFilename.isLowSurrogate c); [easy|].
      destruct (SanitizeFilename.isHighSurrogate c); [easy|].
      split; discriminate.
  - rewrite encode_two, wellFormed_two.
    destruct (unreserved c) eqn:Hu.
    + destruct (unreserved_not_surrogate c Hu) as [-> ->].
      now rewrite option_map_none.
    + destruct (SanitizeFilename.isLowSurrogate c); [easy|].
      destruct (SanitizeFilename.isHighSurrogate c).
      * destruct (SanitizeFilename.isLowSurrogate d); [|easy].
        cbn [andb]. now rewrite option_map_none.
      * now rewrite option_map_none.
Qed.

Lemma encode_safe (s : jsstring) :
  forall r, encodeURIComponent s = Some r ->
            Forall (fun c => urlDelimiter c = false) r /\ (s <> [] -> r <> []).
Proof.
  induction s as [| c | c d s IHs IHd] using SanitizeFacts.pair_ind; intros r.
  - intros H. injection H as <-. split; [constructor|easy].
  - rewrite encode_one. destruct (unreserved c) eqn:Hu.
    + intros H. injection H as <-. split; [|discriminate].
      repeat constructor. now apply unreserved_safe.
    + destruct (SanitizeFilename.isLowSurrogate c); [discriminate|].
      destruct (SanitizeFilename.isHighSurrogate c); [discriminate|].
      intros H. injection H as <-. rewrite app_nil_r.
      split; [apply escape_safe|intros _; apply escape_nonempty].
  - rewrite encode_two. destruct (unreserved c) eqn:Hu.
    + destruct (encodeURIComponent (d :: s)) as [r'|]; [|discriminate].
      simpl. intros H. injection H as <-.
      destruct (IHd r' eq_refl) as [Hsafe _]. split; [|discriminate].
      constructor; [now apply unreserved_safe|exact Hsafe].
    + destruct (SanitizeFilename.isLowSurrogate c); [discriminate|].
      destruct (SanitizeFilename.isHighSurrogate c).
      * destruct (SanitizeFilename.isLowSurrogate d); [|discriminate].
        destruct (encodeURIComponent s) as [r'|]; [|discriminate].
        simpl. intros H. injection H as <-.
        destruct (IHs r' eq_refl) as [Hsafe _]. split.
        -- apply Forall_app. split; [apply escape_safe|exact Hsafe].
        -- intros _ E. apply app_eq_nil in E as [E _].
           now apply escape_nonempty in E.
      * destruct (encodeURIComponent (d :: s)) as [r'|]; [|discriminate].
        simpl. intros H. injection H as <-.
        destruct (IHd r' eq_refl) as [Hsafe _]. split.
        -- apply Forall_app. split; [apply escape_safe|exact Hsafe].
        -- intros _ E. apply app_eq_nil in E as [E _].
           now apply escape_nonempty in E.
Qed.

Lemma encode_unreserved (s : jsstring) :
  forallb unreserved s = true -> encodeURIComponent s = Some s.
Proof.
  induction s as [|c s IH]; [reflexivity|]. cbn [forallb].
  intros H. apply andb_true_iff in H as [Hc Hs].
  cbn [encodeURIComponent]. now rewrite Hc, (IH Hs).
Qed.

Lemma sanitize_Forall (P : N -> Prop) (x : jsstring) :
  Forall P x -> Forall P (sanitize x).
Proof.
  intros H. unfold sanitize.
  apply SanitizeFacts.truncate_Forall, SanitizeFacts.dropTrailing_Forall.
  assert (Hf : forall f, Forall P (filter f x)).
  { intros f. apply Forall_forall. intros c Hc. apply filter_In in Hc as [Hc _].
    rewrite Forall_forall in H. now apply H. }
  assert (Hd : Forall P (SanitizeFilename.dropControl
                           (SanitizeFilename.dropIllegal x))).
  { unfold SanitizeFilename.dropControl. apply Forall_forall. intros c Hc.
    apply filter_In in Hc as [Hc _]. specialize (Hf (fun c => negb (SanitizeFilename.illegal c))).
    rewrite Forall_forall in Hf. now apply Hf. }
  destruct (SanitizeFacts.dropReserved_cases
              (SanitizeFilename.dropControl (SanitizeFilename.dropIllegal x)))
    as [->|[-> _]].
  - destruct (SanitizeFacts.dropWindowsReserved_cases
                (SanitizeFilename.dropControl (SanitizeFilename.dropIllegal x)))
      as [->|[-> _]]; [exact Hd|constructor].
  - cbn. constructor.
Qed.

End UriFacts.

(** X14.  [encodeURIComponent] throws exactly on strings with an
    unpaired surrogate; when it returns, the result contains no slash,
    question mark, hash or space, and is empty only for the empty
    string. *)
Theorem encodeURIComponent_result (s : jsstring) :
  (Uri.encodeURIComponent s = None <-> wellFormedUtf16 s = false)
  /\ forall r, Uri.encodeURIComponent s = Some r ->
               Forall (fun c => urlDelimiter c = false) r
               /\ hasSlash r = false
               /\ (s <> [] -> r <> []).
Proof.
  split; [apply UriFacts.encode_none_iff|].
  intros r Hr. destruct (UriFacts.encode_safe s r Hr) as [Hsafe Hne].
  repeat split; [exact Hsafe| |exact Hne].
  unfold hasSlash. destruct (existsb _ r) eqn:E; [|reflexivity].
  apply existsb_exists in E as (c & Hin & Hc). apply N.eqb_eq in Hc. subst c.
  rewrite Forall_forall in Hsafe. specialize (Hsafe _ Hin). discriminate Hsafe.
Qed.

Lemma encodeURIComponent_result_witness :
  Uri.encodeURIComponent [55357] = None.
Proof.
  apply (proj2 (proj1 (encodeURIComponent_result [55357]))). reflexivity.
Defined.

Example encode_space_and_slash :
  Uri.encodeURIComponent (str "my notes/v2.txt") = Some (str "my%20notes%2Fv2.txt").
Proof. reflexivity. Qed.

(** X15.  When the original name of an upload is made of letters,
    digits and the marks [- _ . ! ~ * ' ( )] only, the stored name goes
    into the raw URL as it is, with no escape. *)
Theorem stored_name_verbatim (now random : N) (file : FilePart) :
  forallb Uri.unreserved (originalname file) = true ->
  Uri.encodeURIComponent (filename now random file)
  = Some (filename now random file).
Proof.
  intros H. apply UriFacts.encode_unreserved. apply forallb_forall.
  assert (Hall : Forall (fun c => Uri.unreserved c = true)
                   (filename now random file)).
  { assert (Hdigits : forall n, Forall (fun c => Uri.unreserved c = true)
                                  (JsString.ofNumber n)).
    { intros n. eapply Forall_impl; [|apply ofNumber_digits].
      intros c Hc. unfold Uri.unreserved. rewrite Hc.
      now rewrite orb_true_r. }
    unfold filename. rewrite !Forall_app. repeat split.
    - apply Hdigits.
    - repeat constructor.
    - apply Hdigits.
    - repeat constructor.
    - destruct (sanitize (originalname file)) eqn:E.
      + repeat constructor.
      + rewrite <- E. apply UriFacts.sanitize_Forall.
        apply Forall_forall. now apply forallb_forall. }
  now apply Forall_forall.
Qed.

Lemma stored_name_verbatim_witness :
  Uri.encodeURIComponent
    (filename 1700000000000 42 {| originalname := str "script.lua"; size := 10 |})
  = Some (filename 1700000000000 42
            {| originalname := str "script.lua"; size := 10 |}).
Proof.
  apply (stored_name_verbatim 1700000000000 42
           {| originalname := str "script.lua"; size := 10 |}).
  reflexivity.
Defined.

Module ListingFacts.

Lemma mapEntries_some (entry : jsstring -> option FileEntry) (names : list jsstring) :
  forall entries,
    mapEntries entry names = Some entries ->
    Forall2 (fun f en => entry f = Some en) names entries.
Proof.
  induction names as [|f names IH]; intros entries H.
  - injection H as <-. constructor.
  - cbn [mapEntries] in H. destruct (entry f) as [first|] eqn:Ef; [|discriminate].
    destruct (mapEntries entry names) as [others|]; [|discriminate].
    injection H as <-. constructor; [exact Ef|now apply IH].
Qed.

Lemma mapEntries_none (entry : jsstring -> option FileEntry) (names : list jsstring) :
  mapEntries entry names = None <-> exists f, In f names /\ entry f = None.
Proof.
  induction names as [|f names IH].
  - split; [discriminate|intros (f & [] & _)].
  - cbn [mapEntries]. destruct (entry f) as [first|] eqn:Ef.
    + destruct (mapEntries entry names) as [others|].
      * split; [discriminate|]. intros (g & [<-|Hin] & Hg); [congruence|].
        assert (H : exists f, In f names /\ entry f = None) by eauto.
        apply IH in H. discriminate H.
      * split; [|reflexivity]. intros _.
        destruct (proj1 IH eq_refl) as (g & Hin & Hg). exists g. split; [now right|exact Hg].
    + split; [|reflexivity]. intros _. exists f. split; [now left|exact Ef].
Qed.

Lemma fileEntry_none
  (toLowerCase : jsstring -> jsstring)
  (req : RequestInfo) (ls : Listing) (name userDir f : jsstring) :
  fileEntry toLowerCase req ls name userDir f = None <->
  wellFormedUtf16 name = false \/ wellFormedUtf16 f = false.
Proof.
  unfold fileEntry. rewrite <- !UriFacts.encode_none_iff.
  destruct (Uri.encodeURIComponent name); destruct (Uri.encodeURIComponent f);
    split; try discriminate; try reflexivity; auto.
  intros [H|H]; discriminate H.
Qed.

Lemma raw_url_segments (encodedName encodedFile : jsstring) :
  noSlash encodedName -> noSlash encodedFile ->
  Path.split (str "/raw/" ++ encodedName ++ str "/" ++ encodedFile)
  = [[]; str "raw"; encodedName; encodedFile].
Proof.
  intros Hn Hf.
  change (str "/raw/" ++ encodedName ++ str "/" ++ encodedFile)
    with (Path.sep :: str "raw" ++ Path.sep
            :: (encodedName ++ Path.sep :: encodedFile)).
  rewrite PathFacts.split_sep.
  rewrite PathFacts.split_app_sep by (repeat constructor; discriminate).
  rewrite (PathFacts.split_app_sep _ _ Hn).
  now rewrite (PathFacts.split_noSlash _ Hf).
Qed.

Lemma encoded_noSlash (s r : jsstring) :
  Uri.encodeURIComponent s = Some r -> noSlash r.
Proof.
  intros H. destruct (UriFacts.encode_safe s r H) as [Hsafe _].
  eapply Forall_impl; [|exact Hsafe]. intros c Hc E. subst c. discriminate Hc.
Qed.

End ListingFacts.

(** X16.  The listing.  Without a login [GET /files] answers 401.  For
    a user whose directory does not exist it answers the empty list.
    Otherwise it has one entry per directory entry, in the order of
    [readdirSync]; each carries the extension of its name after
    [toLowerCase] and the size of its file, and a raw URL made of the
    base URL and exactly the three path segments [raw], the encoded
    username and the encoded file name.  It throws exactly when there
    is something to list and the username or one of the names has an
    unpaired surrogate. *)
Theorem listFiles_answer
  (toLowerCase : jsstring -> jsstring)
  (e : Env) (w : World) (req : RequestInfo) (ls : Listing) :
  (requireLogin w = false ->
   listFiles toLowerCase e w req ls = FilesUnauthorized)
  /\ (requireLogin w = true -> existsSync w (listedDir e w) = false ->
      listFiles toLowerCase e w req ls = FilesJson [])
  /\ (forall entries,
        requireLogin w = true -> existsSync w (listedDir e w) = true ->
        listFiles toLowerCase e w req ls = FilesJson entries ->
        map entryName entries = readdirSync ls (listedDir e w)
        /\ Forall
             (fun entry =>
                entryExt entry = toLowerCase (Path.extname (entryName entry))
                /\ entrySize entry
                   = statSize (statSync ls (Path.join [listedDir e w;
                                                       entryName entry]))
                /\ exists encodedName encodedFile,
                     Uri.encodeURIComponent (sessionName w) = Some encodedName
                     /\ Uri.encodeURIComponent (entryName entry) = Some encodedFile
                     /\ entryRawUrl entry
                        = getBaseUrl req ++ str "/raw/" ++ encodedName
                            ++ str "/" ++ encodedFile
                     /\ Path.split (str "/raw/" ++ encodedName
                                      ++ str "/" ++ encodedFile)
                        = [[]; str "raw"; encodedName; encodedFile])
             entries)
  /\ (listFiles toLowerCase e w req ls = FilesThrows <->
      requireLogin w = true
      /\ existsSync w (listedDir e w) = true
      /\ (exists f, In f (readdirSync ls (listedDir e w))
                    /\ (wellFormedUtf16 (sessionName w) = false
                        \/ wellFormedUtf16 f = false))).
Proof.
  unfold listFiles.
  destruct (requireLogin w); cbn [negb].
  2:{ repeat split; try discriminate.
      intros (H & _). discriminate H. }
  destruct (existsSync w (listedDir e w)); cbn [negb].
  2:{ repeat split; try discriminate.
      intros (_ & H & _). discriminate H. }
  split; [discriminate|]. split; [discriminate|]. split.
  - intros entries _ _ H.
    destruct (mapEntries _ _) as [found|] eqn:Emap; [|discriminate H].
    injection H as <-.
    apply ListingFacts.mapEntries_some in Emap.
    induction Emap as [|f entry names entries Hentry _ [IHnames IHall]].
    + split; constructor.
    + unfold fileEntry in Hentry.
      destruct (Uri.encodeURIComponent (sessionName w)) as [encodedName|] eqn:En;
        [|discriminate Hentry].
      destruct (Uri.encodeURIComponent f) as [encodedFile|] eqn:Ef;
        [|discriminate Hentry].
      injection Hentry as <-. cbn [map entryName]. split; [now rewrite IHnames|].
      constructor; [|exact IHall].
      cbn [entryExt entryName entrySize entryRawUrl].
      repeat split. exists encodedName, encodedFile.
      rewrite Ef. repeat split.
      apply ListingFacts.raw_url_segments;
        eapply ListingFacts.encoded_noSlash; eassumption.
  - destruct (mapEntries _ _) as [found|] eqn:Emap.
    + split; [discriminate|]. intros (_ & _ & f & Hin & Hbad).
      assert (H : mapEntries
                    (fileEntry toLowerCase req ls (sessionName w) (listedDir e w))
                    (readdirSync ls (listedDir e w)) = None).
      { apply ListingFacts.mapEntries_none. exists f. split; [exact Hin|].
        now apply ListingFacts.fileEntry_none. }
      congruence.
    + split; [|reflexivity]. intros _. repeat split.
      apply ListingFacts.mapEntries_none in Emap as (f & Hin & Hf).
      exists f. split; [exact Hin|]. now apply ListingFacts.fileEntry_none in Hf.
Qed.

(** The listing of one file, through the third part of the theorem. *)
Lemma listFiles_answer_witness :
  listFiles JsString.toLowerCase Demo.env DemoListing.asAlicebob
    DemoListing.request DemoListing.listing
  = FilesJson [DemoListing.entry]
  /\ map entryName [DemoListing.entry]
     = readdirSync DemoListing.listing
         (listedDir Demo.env DemoListing.asAlicebob)
  /\ Forall
       (fun entry =>
          entryExt entry
          = JsString.toLowerCase (Path.extname (entryName entry))
          /\ entrySize entry
             = statSize
                 (statSync DemoListing.listing
                    (Path.join [listedDir Demo.env DemoListing.asAlicebob;
                                entryName entry]))
          /\ exists encodedName encodedFile,
               Uri.encodeURIComponent (sessionName DemoListing.asAlicebob)
               = Some encodedName
               /\ Uri.encodeURIComponent (entryName entry) = Some encodedFile
               /\ entryRawUrl entry
                  = getBaseUrl DemoListing.request ++ str "/raw/" ++ encodedName
                      ++ str "/" ++ encodedFile
               /\ Path.split (str "/raw/" ++ encodedName
                                ++ str "/" ++ encodedFile)
                  = [[]; str "raw"; encodedName; encodedFile])
       [DemoListing.entry].
Proof.
  split; [reflexivity|].
  apply (proj1 (proj2 (proj2
           (listFiles_answer JsString.toLowerCase Demo.env
              DemoListing.asAlicebob DemoListing.request DemoListing.listing)))
           [DemoListing.entry]); reflexivity.
Defined.

(** Without a login, and for a user whose directory is not there. *)
Example listFiles_edges :
  listFiles JsString.toLowerCase Demo.env Demo.anonymous
    DemoListing.request DemoListing.listing = FilesUnauthorized
  /\ listFiles JsString.toLowerCase Demo.env
       {| usersFile := Demo.db; files := Demo.disk;
          session := Some {| userId := 9; sessionUsername := str "carol" |} |}
       DemoListing.request DemoListing.listing = FilesJson [].
Proof. split; reflexivity. Qed.

(** A username with an unpaired surrogate registers, and makes the
    listing throw as soon as there is a file. *)
Example listFiles_throws :
  sanitize [55357] = [55357]
  /\ listFiles JsString.toLowerCase Demo.env
       {| usersFile := Demo.db;
          files := fun _ => Some Directory;
          session := Some {| userId := 9; sessionUsername := [55357] |} |}
       DemoListing.request DemoListing.listing = FilesThrows.
Proof. split; reflexivity. Qed.

(** X17.  The stored name keeps the extension of an original name that
    is already sanitized: a base that is not empty, then [.lua] or
    [.txt] in any case.  The listing then shows that extension,
    lower-cased. *)
Theorem stored_name_keeps_extension
  (now random : N) (base ext : jsstring) (bytes : N) :
  base <> [] ->
  ALLOWED_EXT_has (JsString.toLowerCase ext) = true ->
  sanitize (base ++ ext) = base ++ ext ->
  let file := {| originalname := base ++ ext; size := bytes |} in
  fileFilter file = true
  /\ Path.extname (filename now random file) = ext
  /\ ALLOWED_EXT_has
       (JsString.toLowerCase (Path.extname (filename now random file))) = true.
Proof.
  intros Hbase Hallowed Hclean file.
  assert (Hslash : noSlash (base ++ ext)).
  { rewrite <- Hclean. apply DirFacts.clean_noSlash, SanitizeFacts.sanitize_clean. }
  apply Forall_app in Hslash as [Hbase_slash _].
  destruct (allowed_shape ext Hallowed) as (letters & -> & Hne & Hplain).
  assert (Hname : filename now random file
                  = (JsString.ofNumber now ++ str "-" ++ JsString.ofNumber random
                       ++ str "-" ++ base) ++ Path.dot :: letters).
  { unfold filename, file. cbn [originalname]. rewrite Hclean.
    destruct (base ++ Path.dot :: letters) as [|c l] eqn:E.
    - now apply app_eq_nil in E as [_ E].
    - rewrite <- E. now rewrite <- !app_assoc. }
  assert (Hext : Path.extname (filename now random file) = Path.dot :: letters).
  { rewrite Hname. apply ExtnameFacts.extname_suffix; try assumption.
    - intros E. apply app_eq_nil in E as [_ E]. now apply app_eq_nil in E as [E _].
    - rewrite !Forall_app. repeat split; try exact Hbase_slash;
        try (repeat constructor; discriminate);
        (eapply Forall_impl; [|apply ofNumber_digits]);
        intros c Hc E; subst c; discriminate Hc. }
  split; [|split].
  - unfold fileFilter, file. cbn [originalname].
    rewrite ExtnameFacts.extname_suffix; assumption.
  - exact Hext.
  - now rewrite Hext.
Qed.

Lemma stored_name_keeps_extension_witness :
  let file := {| originalname := str "My Script" ++ str ".LUA"; size := 10 |} in
  fileFilter file = true
  /\ Path.extname (filename 1700000000000 42 file) = str ".LUA"
  /\ ALLOWED_EXT_has
       (JsString.toLowerCase (Path.extname (filename 1700000000000 42 file)))
     = true.
Proof.
  apply (stored_name_keeps_extension 1700000000000 42
           (str "My Script") (str ".LUA") 10).
  - discriminate.
  - reflexivity.
  - reflexivity.
Defined.

(** The hypothesis on the name is needed.  A device name passes the
    filter and is stored as [file], and the cut at 255 bytes can take
    the extension away: both are then listed with no extension. *)
Example stored_name_loses_extension :
  let device := {| originalname := str "con.lua"; size := 10 |} in
  let long := {| originalname := List.repeat 97 255 ++ str ".lua"; size := 10 |} in
  (fileFilter device = true
   /\ Path.extname (filename 1700000000000 42 device) = [])
  /\ (fileFilter long = true
      /\ Path.extname (filename 1700000000000 42 long) = []).
Proof. repeat split; vm_compute; reflexivity. Qed.
